(** * taoca: a policy-gated certificate authority

    Shallow embedding of the parts of [kevinawalsh/taoca] that the
    specification makes claims about:

    - [policy/scanner.go]     the rule-file scanner ([split], [NextLine]);
    - [cmd/taoca/policy.go]   [LoadPolicy];
    - [x509.go]               [NewCertficationPolicy];
    - [util/x509txt]          [ExtractCertificationPolicy];
    - [cmd/taoca/server.go]   [sanitize], [publish], [doError],
                              [sendResponse], [doResponse].

    Go strings are modelled as [string], byte slices as [list byte], Go
    [int] values as [Z] or [N], and the Go [error] interface as the inductive
    type [error].  Library code the repository calls ([bufio.Scanner],
    [regexp], [strings], [encoding/asn1], [encoding/binary]) is modelled by
    executable definitions in the modules [GoStrings], [Bufio] and [Asn1]. *)

From Stdlib Require Import String Ascii Bool Arith NArith ZArith Lia List.
From Stdlib.Strings Require Import Byte.
Import ListNotations.
Local Open Scope string_scope.
Local Open Scope list_scope.

Set Implicit Arguments.

(* ================================================================== *)
(** * Errors and results *)

(** Go's [error] interface.  [fmt.Errorf] values keep their format string
    and their arguments, so that a statement can say which values an error
    message names. *)
Inductive error : Type :=
| Errorf (format : string) (args : list fmtArg)
| StructuralError (msg : string)      (* asn1.StructuralError *)
| SyntaxError (msg : string)          (* asn1.SyntaxError *)
| ErrorsNew (msg : string)            (* errors.New *)
| EOF                                 (* io.EOF *)
| ErrNegativeAdvance                  (* bufio.ErrNegativeAdvance *)
| ErrAdvanceTooFar                    (* bufio.ErrAdvanceTooFar *)
| ExternalError (msg : string)        (* an error returned by a collaborator *)
with fmtArg : Type :=
| ArgString (s : string)
| ArgInt (z : Z)
| ArgBytes (b : list byte)
| ArgError (e : error).

Inductive result (A : Type) : Type :=
| Ok (a : A)
| Err (e : error).
Arguments Ok {A} a.
Arguments Err {A} e.

Definition is_ok {A} (r : result A) : bool :=
  match r with Ok _ => true | Err _ => false end.

(* ================================================================== *)
(** * Go strings and bytes *)

Module GoStrings.

(** [[]byte(s)] and [string(b)] *)
Definition bytes (s : string) : list byte := list_byte_of_string s.
Definition str (b : list byte) : string := string_of_list_byte b.

(** [len(s)] *)
Definition len (s : string) : nat := String.length s.

Definition byte_eqb (a b : byte) : bool := Byte.eqb a b.

(** [byte(n)]: conversion of an integer to a byte keeps the low 8 bits. *)
Definition byte_of_N (n : N) : byte :=
  match Byte.of_N (n mod 256) with
  | Some b => b
  | None => x00
  end.

(** [unicode.IsSpace(rune(b))] for a byte [b], that is for a code point in
    the Latin-1 range. *)
Definition IsSpace_byte (b : byte) : bool :=
  match b with
  | x09 | x0a | x0b | x0c | x0d | x20 | x85 | xa0 => true
  | _ => false
  end.

(** The UTF-8 encodings of the code points for which [unicode.IsSpace]
    holds: the six ASCII ones, U+0085, U+00A0, U+1680, U+2000..U+200A,
    U+2028, U+2029, U+202F, U+205F and U+3000. *)
Definition space_encodings : list (list byte) :=
  [ [x09]; [x0a]; [x0b]; [x0c]; [x0d]; [x20];
    [xc2; x85]; [xc2; xa0]; [xe1; x9a; x80];
    [xe2; x80; x80]; [xe2; x80; x81]; [xe2; x80; x82]; [xe2; x80; x83];
    [xe2; x80; x84]; [xe2; x80; x85]; [xe2; x80; x86]; [xe2; x80; x87];
    [xe2; x80; x88]; [xe2; x80; x89]; [xe2; x80; x8a];
    [xe2; x80; xa8]; [xe2; x80; xa9]; [xe2; x80; xaf];
    [xe2; x81; x9f]; [xe3; x80; x80] ].

Fixpoint bytes_eqb (a b : list byte) : bool :=
  match a, b with
  | [], [] => true
  | x :: a', y :: b' => byte_eqb x y && bytes_eqb a' b'
  | _, _ => false
  end.

Fixpoint has_prefix (p s : list byte) : bool :=
  match p, s with
  | [], _ => true
  | x :: p', y :: s' => byte_eqb x y && has_prefix p' s'
  | _ :: _, [] => false
  end.

(** The encoded white-space rune [s] starts with, if any. *)
Definition leading_space (s : list byte) : option (list byte) :=
  find (fun e => has_prefix e s) space_encodings.

(** [strings.TrimLeftFunc(s, unicode.IsSpace)]; the fuel bounds the number
    of runes removed and is the length of the string. *)
Fixpoint trim_left (fuel : nat) (s : list byte) : list byte :=
  match fuel with
  | O => s
  | S fuel' =>
      match leading_space s with
      | Some e => trim_left fuel' (skipn (length e) s)
      | None => s
      end
  end.

(** [strings.TrimRightFunc(s, unicode.IsSpace)]: a string ends with a
    white-space rune exactly when its reversal starts with the reversed
    encoding of one. *)
Definition trailing_space (r : list byte) : option (list byte) :=
  find (fun e => has_prefix (rev e) r) space_encodings.

Fixpoint trim_right_rev (fuel : nat) (r : list byte) : list byte :=
  match fuel with
  | O => r
  | S fuel' =>
      match trailing_space r with
      | Some e => trim_right_rev fuel' (skipn (length e) r)
      | None => r
      end
  end.

(** [strings.TrimSpace] *)
Definition TrimSpace_bytes (s : list byte) : list byte :=
  let l := trim_left (length s) s in
  rev (trim_right_rev (length l) (rev l)).

Definition TrimSpace (s : string) : string := str (TrimSpace_bytes (bytes s)).

(** [strings.HasPrefix], [strings.HasSuffix] *)
Definition HasPrefix (s p : string) : bool := has_prefix (bytes p) (bytes s).
Definition HasSuffix (s p : string) : bool :=
  has_prefix (rev (bytes p)) (rev (bytes s)).

(** [strings.ContainsRune(s, rune(b))] for an ASCII-only [s]: a byte above
    0x7f is a rune whose encoding takes two bytes, which an ASCII string
    does not contain. *)
Definition ContainsRune_byte (s : string) (b : ascii) : bool :=
  existsb (Ascii.eqb b) (list_ascii_of_string s).

End GoStrings.
Import GoStrings.

(** Line feed, carriage return and the other characters that a Rocq string
    literal cannot escape. *)
Definition LF : string := String "010"%char EmptyString.

(* ================================================================== *)
(** * bufio.Scanner *)

Module Bufio.

(** A [bufio.SplitFunc] returns [(advance, token, err)]; a [nil] token is
    [None]. *)
Definition SplitFunc : Type :=
  list byte -> bool -> Z * option (list byte) * option error.

(** The scanner's state.  [rd] lists what the successive [Read] calls on the
    underlying reader deliver before it reports [io.EOF]; [buf] is the
    unconsumed window [s.buf[s.start:s.end]].  The buffer's capacity
    ([MaxScanTokenSize]) is not modelled: tokens are assumed to fit. *)
Record Scanner : Type := mkScanner {
  rd : list (list byte);
  buf : list byte;
  err : option error;
  token : list byte;
  splitFn : SplitFunc }.

Definition isSome {A} (o : option A) : bool :=
  match o with Some _ => true | None => false end.

(** [s.setErr(err)]: records the first non-EOF error. *)
Definition setErr (s : Scanner) (e : error) : Scanner :=
  match err s with
  | None | Some EOF => mkScanner (rd s) (buf s) (Some e) (token s) (splitFn s)
  | Some _ => s
  end.

Inductive step : Type :=
| Done (ok : bool) (s : Scanner)
| More (s : Scanner).

(** First half of the body of the loop of [Scan]: "see if we can get a
      token with what we already have". *)
Definition Scan_try (s : Scanner) : step :=
  if (0 <? length (buf s))%nat || isSome (err s) then
    match splitFn s (buf s) (isSome (err s)) with
    | (_, _, Some e) => Done false (setErr s e)
    | (advance, tok, None) =>
        if (advance <? 0)%Z then Done false (setErr s ErrNegativeAdvance)
        else if (Z.of_nat (length (buf s)) <? advance)%Z
             then Done false (setErr s ErrAdvanceTooFar)
        else
          let s' := mkScanner (rd s) (skipn (Z.to_nat advance) (buf s)) (err s)
                      (match tok with Some t => t | None => [] end)
                      (splitFn s) in
          match tok with
          | Some _ => Done true s'
          | None => More s'
          end
    end
  else More s.

Definition shutdown (s : Scanner) : Scanner :=
  mkScanner (rd s) [] (err s) (token s) (splitFn s).

(** [Scan]: the loop runs [Scan_try], stops if an error (or EOF) is
    recorded, and otherwise reads once more from the reader.  The recursion
    follows the reader's pending chunks; after the last one [Read] reports
    [io.EOF] and the body runs one final time. *)
Fixpoint Scan_loop (pending : list (list byte)) (s : Scanner) : bool * Scanner :=
  match Scan_try s with
  | Done ok s' => (ok, s')
  | More s' =>
      match err s' with
      | Some _ => (false, shutdown s')
      | None =>
          match pending with
          | c :: pending' =>
              Scan_loop pending'
                (mkScanner pending' (buf s' ++ c) (err s') (token s') (splitFn s'))
          | [] =>
              match Scan_try (setErr s' EOF) with
              | Done ok s'' => (ok, s'')
              | More s'' => (false, shutdown s'')
              end
          end
      end
  end.

Definition Scan (s : Scanner) : bool * Scanner := Scan_loop (rd s) s.

(** [s.Text()] *)
Definition Text (s : Scanner) : string := str (token s).

(** [bufio.NewScanner(f)] followed by [s.Split(split)] *)
Definition NewScanner (f : list (list byte)) (split : SplitFunc) : Scanner :=
  mkScanner f [] None [] split.

(** Bytes the scanner has not consumed yet. *)
Definition remaining (s : Scanner) : nat :=
  length (buf s) + length (concat (rd s)).

End Bufio.

(* ================================================================== *)
(** * policy/scanner.go *)

Module Policy.

(** [continuations.ReplaceAll(data, nil)] for the regular expression
    [\\?\r?\n]: every leftmost match (an optional backslash, an optional
    carriage return, a line feed) is deleted. *)
Fixpoint ReplaceAll_continuations (data : list byte) : list byte :=
  match data with
  | [] => []
  | b :: rest =>
      if byte_eqb b x0a then ReplaceAll_continuations rest
      else
        match rest with
        | c :: rest' =>
            if (byte_eqb b x5c || byte_eqb b x0d) && byte_eqb c x0a
            then ReplaceAll_continuations rest'
            else
              match rest' with
              | d :: rest'' =>
                  if byte_eqb b x5c && byte_eqb c x0d && byte_eqb d x0a
                  then ReplaceAll_continuations rest''
                  else b :: ReplaceAll_continuations rest
              | [] => b :: ReplaceAll_continuations rest
              end
        | [] => b :: ReplaceAll_continuations rest
        end
  end.

(** [split]'s first loop: the index of the first byte at or after [i] that
    is not a space other than a line feed.  [suffix] is [data[i:]]. *)
Fixpoint skip_spaces (suffix : list byte) (i : nat) : nat :=
  match suffix with
  | b :: rest =>
      if IsSpace_byte b && negb (byte_eqb b x0a)
      then skip_spaces rest (S i) else i
  | [] => i
  end.

(** The comment loop: the index of the first line feed at or after [i]. *)
Fixpoint find_newline (suffix : list byte) (i : nat) : option nat :=
  match suffix with
  | b :: rest => if byte_eqb b x0a then Some i else find_newline rest (S i)
  | [] => None
  end.

(** The non-comment loop: the first index [j >= i] with
    [data[j] == '\n' && (j == 0 || data[j-1] != '\\')]; [prev] is
    [data[i-1]], or [None] when [i = 0]. *)
Fixpoint find_line_end (prev : option byte) (suffix : list byte) (i : nat)
  : option nat :=
  match suffix with
  | b :: rest =>
      if byte_eqb b x0a
         && match prev with None => true | Some p => negb (byte_eqb p x5c) end
      then Some i
      else find_line_end (Some b) rest (S i)
  | [] => None
  end.

Definition byte_before (data : list byte) (i : nat) : option byte :=
  match i with O => None | S j => nth_error data j end.

Definition split : Bufio.SplitFunc := fun data atEOF =>
  if atEOF && (length data =? 0)%nat then (0%Z, None, None)
  else
    let i := skip_spaces data 0 in
    if match nth_error data i with Some b => byte_eqb b x23 | None => false end
    then
      match find_newline (skipn i data) i with
      | Some j => (Z.of_nat j, Some [], None)
      | None =>
          if atEOF then (Z.of_nat (length data), Some [], None)
          else (0%Z, None, None)
      end
    else
      match find_line_end (byte_before data i) (skipn i data) i with
      | Some j =>
          (Z.of_nat (j + 1),
           Some (ReplaceAll_continuations (firstn (j + 1) data)), None)
      | None =>
          if atEOF then
            (Z.of_nat (length data),
             match ReplaceAll_continuations data with
             | [] => None
             | out => Some out
             end, None)
          else (0%Z, None, None)
      end.

(** The file system as [NewScanner] sees it: [os.Open] fails, or the file
    delivers its content in successive reads. *)
Definition FileSystem : Type := string -> result (list (list byte)).

Definition NewScanner (fs : FileSystem) (path : string)
  : result Bufio.Scanner :=
  match fs path with
  | Err e => Err e
  | Ok f => Ok (Bufio.NewScanner f split)
  end.

(** [NextLine]: scan until a token is non-empty after trimming.  Every
    token [split] returns consumes at least one byte, so the number of
    unconsumed bytes plus one bounds the iterations; [None] stands for a
    loop that has not ended within the fuel. *)
Fixpoint NextLine_loop (fuel : nat) (s : Bufio.Scanner)
  : option (string * Bufio.Scanner) :=
  match fuel with
  | O => None
  | S fuel' =>
      match Bufio.Scan s with
      | (true, s') =>
          let t := TrimSpace (Bufio.Text s') in
          if negb (String.length t =? 0)%nat then Some (t, s')
          else NextLine_loop fuel' s'
      | (false, s') => Some ("", s')
      end
  end.

Definition NextLine (s : Bufio.Scanner) : option (string * Bufio.Scanner) :=
  NextLine_loop (S (Bufio.remaining s)) s.

End Policy.

(* ================================================================== *)
(** * encoding/asn1 *)

(** Go's [encoding/asn1] as [NewCertficationPolicy] and
    [ExtractCertificationPolicy] use it: DER marshalling of object
    identifiers, strings, structs and slices, and the matching parser, as the
    library stood when the repository was written (a string with no explicit
    string type is marshalled as a PrintableString when its characters allow
    it and as a UTF8String otherwise; ['*'] counts as printable). *)
Module Asn1.

Local Open Scope N_scope.

Definition classUniversal : N := 0.
Definition tagOID : N := 6.
Definition tagUTF8String : N := 12.
Definition tagSequence : N := 16.
Definition tagPrintableString : N := 19.
Definition tagT61String : N := 20.
Definition tagIA5String : N := 22.
Definition tagUTCTime : N := 23.
Definition tagGeneralizedTime : N := 24.
Definition tagGeneralString : N := 27.

Record tagAndLength : Type := mkTagAndLength {
  class : N;
  tag : N;
  length_ : N;
  isCompound : bool }.

(** ** Character sets *)

Definition isPrintable (b : byte) : bool :=
  let n := Byte.to_N b in
  ((97 <=? n) && (n <=? 122))          (* 'a' .. 'z' *)
  || ((65 <=? n) && (n <=? 90))        (* 'A' .. 'Z' *)
  || ((48 <=? n) && (n <=? 57))        (* '0' .. '9' *)
  || ((39 <=? n) && (n <=? 41))        (* '\'' .. ')' *)
  || ((43 <=? n) && (n <=? 47))        (* '+' .. '/' *)
  || (n =? 32) || (n =? 58) || (n =? 61) || (n =? 63)   (* ' ' ':' '=' '?' *)
  || (n =? 42).                         (* '*' *)

(** [utf8.Valid]: no truncated, overlong or surrogate encodings, nothing
    above U+10FFFF. *)
Definition cont (b : byte) : bool :=
  let n := Byte.to_N b in (128 <=? n) && (n <=? 191).
Definition between (lo hi : N) (b : byte) : bool :=
  let n := Byte.to_N b in (lo <=? n) && (n <=? hi).

Fixpoint utf8_Valid_fuel (fuel : nat) (s : list byte) : bool :=
  match fuel with
  | O => match s with [] => true | _ => false end
  | S fuel' =>
      match s with
      | [] => true
      | b0 :: r0 =>
          let n := Byte.to_N b0 in
          if n <? 128 then utf8_Valid_fuel fuel' r0
          else if between 194 223 b0 then
            match r0 with
            | b1 :: r1 => cont b1 && utf8_Valid_fuel fuel' r1
            | _ => false
            end
          else if between 224 239 b0 then
            match r0 with
            | b1 :: b2 :: r2 =>
                (if n =? 224 then between 160 191 b1
                 else if n =? 237 then between 128 159 b1
                 else cont b1)
                && cont b2 && utf8_Valid_fuel fuel' r2
            | _ => false
            end
          else if between 240 244 b0 then
            match r0 with
            | b1 :: b2 :: b3 :: r3 =>
                (if n =? 240 then between 144 191 b1
                 else if n =? 244 then between 128 143 b1
                 else cont b1)
                && cont b2 && cont b3 && utf8_Valid_fuel fuel' r3
            | _ => false
            end
          else false
      end
  end.

Definition utf8_Valid (s : list byte) : bool := utf8_Valid_fuel (length s) s.

(** ** Marshalling *)

(** [lengthLength]: the number of bytes of a length; a Go [int] has at most
    eight. *)
Fixpoint lengthLength_loop (fuel : nat) (i : N) : nat :=
  match fuel with
  | O => 1
  | S fuel' => if 255 <? i then S (lengthLength_loop fuel' (N.shiftr i 8)) else 1
  end.
Definition lengthLength (i : N) : nat := lengthLength_loop 8 i.

(** [marshalLength]: [for ; n > 0; n-- { WriteByte(byte(i >> ((n-1)*8))) }] *)
Fixpoint marshalLength_loop (n : nat) (i : N) : list byte :=
  match n with
  | O => []
  | S m => byte_of_N (N.shiftr i (8 * N.of_nat m)) :: marshalLength_loop m i
  end.
Definition marshalLength (i : N) : list byte :=
  marshalLength_loop (lengthLength i) i.

(** [marshalBase128Int] *)
Fixpoint base128_len (fuel : nat) (i : N) : nat :=
  match fuel with
  | O => 0
  | S fuel' => if 0 <? i then S (base128_len fuel' (N.shiftr i 7)) else 0
  end.

Fixpoint base128_bytes (l : nat) (n : N) : list byte :=
  match l with
  | O => []
  | S i =>
      let o := N.land (N.shiftr n (N.of_nat i * 7)) 127 in
      byte_of_N (if (i =? 0)%nat then o else N.lor o 128) :: base128_bytes i n
  end.

Definition marshalBase128Int (n : N) : list byte :=
  if n =? 0 then [x00] else base128_bytes (base128_len 10 n) n.

Definition marshalTagAndLength (t : tagAndLength) : list byte :=
  let b := N.lor (N.shiftl (class t) 6) (if isCompound t then 32 else 0) in
  (if 31 <=? tag t
   then byte_of_N (N.lor b 31) :: marshalBase128Int (tag t)
   else [byte_of_N (N.lor b (tag t))])
  ++ (if 128 <=? length_ t
      then byte_of_N (N.lor 128 (N.of_nat (lengthLength (length_ t))))
             :: marshalLength (length_ t)
      else [byte_of_N (length_ t)]).

Definition marshalObjectIdentifier (oid : list N) : result (list byte) :=
  match oid with
  | o0 :: o1 :: arcs =>
      if (2 <? o0) || ((o0 <? 2) && (40 <=? o1))
      then Err (StructuralError "invalid object identifier")
      else Ok (marshalBase128Int (o0 * 40 + o1)
                 ++ concat (map marshalBase128Int arcs))
  | _ => Err (StructuralError "invalid object identifier")
  end.

(** The parameters of a struct field's [asn1:"..."] tag that the values
    marshalled here use. *)
Record fieldParameters : Type := mkParams {
  stringType : N;          (* 0 when the tag names no string type *)
  omitEmpty : bool }.

Definition noParams : fieldParameters := mkParams 0 false.

(** The Go values handed to [Marshal]; a struct lists its fields with their
    parameters, an [interface{}] element stands for the value it holds. *)
#[local] Unset Elimination Schemes.
Inductive value : Type :=
| VObjectIdentifier (oid : list N)
| VString (s : string)
| VStruct (fields : list (fieldParameters * value))
| VSlice (elems : list value).
#[local] Set Elimination Schemes.

(** [getUniversalType] *)
Definition universalType (v : value) : N * bool :=
  match v with
  | VObjectIdentifier _ => (tagOID, false)
  | VString _ => (tagPrintableString, false)
  | VStruct _ => (tagSequence, true)
  | VSlice _ => (tagSequence, true)
  end.

Definition marshalIA5String (s : string) : result (list byte) :=
  if existsb (fun c => 127 <? Byte.to_N c) (bytes s)
  then Err (StructuralError "IA5String contains invalid character")
  else Ok (bytes s).

Definition marshalPrintableString (s : string) : result (list byte) :=
  if forallb isPrintable (bytes s) then Ok (bytes s)
  else Err (StructuralError "PrintableString contains invalid character").

Definition marshalUTF8String (s : string) : result (list byte) := Ok (bytes s).

(** The tag [marshalField] picks for a string. *)
Definition stringTag (params : fieldParameters) (s : string) : result N :=
  if stringType params =? 0 then
    if forallb isPrintable (bytes s) then Ok tagPrintableString
    else if utf8_Valid (bytes s) then Ok tagUTF8String
    else Err (ErrorsNew "asn1: string not valid UTF-8")
  else Ok (stringType params).

Definition isEmptySlice (v : value) : bool :=
  match v with VSlice [] => true | _ => false end.

Definition isString (v : value) : bool :=
  match v with VString _ => true | _ => false end.

(** [marshalField], with [marshalBody] inlined. *)
Fixpoint marshalField (v : value) (params : fieldParameters) {struct v}
  : result (list byte) :=
  if isEmptySlice v && omitEmpty params then Ok []
  else if negb (stringType params =? 0) && negb (isString v)
  then Err (StructuralError "explicit string type given to non-string member")
  else
    let wrap (tg : N) (compound : bool) (body : list byte) :=
      marshalTagAndLength
        (mkTagAndLength classUniversal tg (N.of_nat (length body)) compound)
        ++ body in
    match v with
    | VObjectIdentifier oid =>
        match marshalObjectIdentifier oid with
        | Ok body => Ok (wrap tagOID false body)
        | Err e => Err e
        end
    | VString s =>
        match stringTag params s with
        | Err e => Err e
        | Ok tg =>
            match (if stringType params =? tagIA5String then marshalIA5String s
                   else if stringType params =? tagPrintableString
                        then marshalPrintableString s
                   else marshalUTF8String s) with
            | Ok body => Ok (wrap tg false body)
            | Err e => Err e
            end
        end
    | VStruct fields =>
        match (fix marshalFields (fs : list (fieldParameters * value))
                 : result (list byte) :=
                 match fs with
                 | [] => Ok []
                 | (p, f) :: fs' =>
                     match marshalField f p with
                     | Err e => Err e
                     | Ok b =>
                         match marshalFields fs' with
                         | Err e => Err e
                         | Ok bs => Ok (b ++ bs)
                         end
                     end
                 end) fields with
        | Ok body => Ok (wrap tagSequence true body)
        | Err e => Err e
        end
    | VSlice elems =>
        match (fix marshalElems (es : list value) : result (list byte) :=
                 match es with
                 | [] => Ok []
                 | f :: es' =>
                     match marshalField f noParams with
                     | Err e => Err e
                     | Ok b =>
                         match marshalElems es' with
                         | Err e => Err e
                         | Ok bs => Ok (b ++ bs)
                         end
                     end
                 end) elems with
        | Ok body => Ok (wrap tagSequence true body)
        | Err e => Err e
        end
    end.

(** [asn1.Marshal] *)
Definition Marshal (v : value) : result (list byte) := marshalField v noParams.

(** ** Parsing *)

(** [parseBase128Int], from the first byte on. *)
Fixpoint parseBase128Int_loop (shifted : nat) (ret : N) (bs : list byte)
  : result (N * list byte) :=
  match bs with
  | [] => Err (SyntaxError "truncated base 128 integer")
  | b :: rest =>
      if (4 <? shifted)%nat then Err (StructuralError "base 128 integer too large")
      else
        let ret' := N.lor (N.shiftl ret 7) (N.land (Byte.to_N b) 127) in
        if N.land (Byte.to_N b) 128 =? 0 then Ok (ret', rest)
        else parseBase128Int_loop (S shifted) ret' rest
  end.
Definition parseBase128Int (bs : list byte) : result (N * list byte) :=
  parseBase128Int_loop 0 0 bs.

(** The loop of [parseTagAndLength] over the bytes of a long-form length. *)
Fixpoint parseLength (numBytes : nat) (acc : N) (bs : list byte)
  : result (N * list byte) :=
  match numBytes with
  | O => Ok (acc, bs)
  | S n =>
      match bs with
      | [] => Err (SyntaxError "truncated tag or length")
      | b :: rest =>
          if 2 ^ 23 <=? acc then Err (StructuralError "length too large")
          else
            let acc' := N.lor (N.shiftl acc 8) (Byte.to_N b) in
            if acc' =? 0
            then Err (StructuralError "superfluous leading zeros in length")
            else parseLength n acc' rest
      end
  end.

(** [parseTagAndLength(bytes, offset)] where [b :: rest] is
    [bytes[offset:]]; callers check that it is not empty. *)
Definition parseTagAndLength (b : byte) (rest : list byte)
  : result (tagAndLength * list byte) :=
  let n := Byte.to_N b in
  let cls := N.shiftr n 6 in
  let compound := N.land n 32 =? 32 in
  match (if N.land n 31 =? 31 then parseBase128Int rest
         else Ok (N.land n 31, rest)) with
  | Err e => Err e
  | Ok (tg, rest1) =>
      match rest1 with
      | [] => Err (SyntaxError "truncated tag or length")
      | l :: rest2 =>
          let ln := Byte.to_N l in
          if N.land ln 128 =? 0
          then Ok (mkTagAndLength cls tg (N.land ln 127) compound, rest2)
          else
            let numBytes := N.land ln 127 in
            if numBytes =? 0
            then Err (SyntaxError "indefinite length found (not DER)")
            else
              match parseLength (N.to_nat numBytes) 0 rest2 with
              | Err e => Err e
              | Ok (len, rest3) =>
                  Ok (mkTagAndLength cls tg len compound, rest3)
              end
      end
  end.

(** [parseObjectIdentifier] *)
Fixpoint parseArcs (fuel : nat) (bs : list byte) : result (list N) :=
  match bs with
  | [] => Ok []
  | _ =>
      match fuel with
      | O => Ok []
      | S fuel' =>
          match parseBase128Int bs with
          | Err e => Err e
          | Ok (v, rest) =>
              match parseArcs fuel' rest with
              | Err e => Err e
              | Ok arcs => Ok (v :: arcs)
              end
          end
      end
  end.

Definition parseObjectIdentifier (bs : list byte) : result (list N) :=
  match bs with
  | [] => Err (SyntaxError "zero length OBJECT IDENTIFIER")
  | _ =>
      match parseBase128Int bs with
      | Err e => Err e
      | Ok (v, rest) =>
          match parseArcs (length rest) rest with
          | Err e => Err e
          | Ok arcs =>
              Ok ((if v <? 80 then [v / 40; v mod 40] else [2; v - 80]) ++ arcs)
          end
      end
  end.

Definition parsePrintableString (bs : list byte) : result string :=
  if forallb isPrintable bs then Ok (str bs)
  else Err (SyntaxError "PrintableString contains invalid character").

Definition parseIA5String (bs : list byte) : result string :=
  if existsb (fun b => 128 <=? Byte.to_N b) bs
  then Err (SyntaxError "IA5String contains invalid character")
  else Ok (str bs).

Definition parseT61String (bs : list byte) : result string := Ok (str bs).
Definition parseUTF8String (bs : list byte) : result string := Ok (str bs).

(** [asn1.RawValue] *)
Record RawValue : Type := mkRawValue {
  Class : N;
  Tag : N;
  IsCompound : bool;
  Bytes : list byte;
  FullBytes : list byte }.

(** The Go types [Unmarshal] is asked to fill (none of their fields has
    an [asn1] tag), and the values it produces. *)
#[local] Unset Elimination Schemes.
Inductive type : Type :=
| TObjectIdentifier
| TString
| TRawValue
| TStruct (fields : list type)
| TSlice (elem : type).

Inductive parsed : Type :=
| PObjectIdentifier (oid : list N)
| PString (s : string)
| PRawValue (r : RawValue)
| PStruct (fields : list parsed)
| PSlice (elems : list parsed).
#[local] Set Elimination Schemes.

Definition typeUniversalType (t : type) : N * bool :=
  match t with
  | TObjectIdentifier => (tagOID, false)
  | TString => (tagPrintableString, false)
  | TRawValue => (0, false)
  | TStruct _ => (tagSequence, true)
  | TSlice _ => (tagSequence, true)
  end.

Definition isStringTag (tg : N) : bool :=
  (tg =? tagIA5String) || (tg =? tagGeneralString)
  || (tg =? tagT61String) || (tg =? tagUTF8String).

(** The first loop of [parseSequenceOf]: count the elements and check their
    tags.  Every element takes at least two bytes, so the length of the
    input bounds the iterations. *)
Fixpoint countElements (fuel : nat) (expectedTag : N) (compoundType : bool)
    (bs : list byte) (numElements : nat) : result nat :=
  match bs with
  | [] => Ok numElements
  | b :: rest =>
      match fuel with
      | O => Err (SyntaxError "truncated sequence")
      | S fuel' =>
          match parseTagAndLength b rest with
          | Err e => Err e
          | Ok (t, rest1) =>
              let tg :=
                if isStringTag (tag t) then tagPrintableString
                else if (tag t =? tagGeneralizedTime) || (tag t =? tagUTCTime)
                     then tagUTCTime
                else tag t in
              if negb (class t =? classUniversal)
                 || negb (Bool.eqb (isCompound t) compoundType)
                 || negb (tg =? expectedTag)
              then Err (StructuralError "sequence tag mismatch")
              else if N.of_nat (length rest1) <? length_ t
              then Err (SyntaxError "truncated sequence")
              else countElements fuel' expectedTag compoundType
                     (skipn (N.to_nat (length_ t)) rest1) (S numElements)
          end
      end
  end.

Definition parseString (universalTag : N) (inner : list byte) : result string :=
  if universalTag =? tagPrintableString then parsePrintableString inner
  else if universalTag =? tagIA5String then parseIA5String inner
  else if universalTag =? tagT61String then parseT61String inner
  else if universalTag =? tagUTF8String then parseUTF8String inner
  else if universalTag =? tagGeneralString then parseT61String inner
  else Err (SyntaxError "internal error: unknown string type").

(** The loop of [parseField] over the fields of a struct and the second loop
    of [parseSequenceOf] over the elements counted, for a given field
    parser. *)
Definition parseFields (field : type -> list byte -> result (parsed * list byte))
  : list type -> list byte -> result (list parsed) :=
  fix loop (fs : list type) (ib : list byte) : result (list parsed) :=
    match fs with
    | [] => Ok []
    | f :: fs' =>
        match field f ib with
        | Err e => Err e
        | Ok (v, ib') =>
            match loop fs' ib' with
            | Err e => Err e
            | Ok vs => Ok (v :: vs)
            end
        end
    end.

Definition parseElems (element : list byte -> result (parsed * list byte))
  : nat -> list byte -> result (list parsed) :=
  fix loop (k : nat) (ib : list byte) : result (list parsed) :=
    match k with
    | O => Ok []
    | S k' =>
        match element ib with
        | Err e => Err e
        | Ok (v, ib') =>
            match loop k' ib' with
            | Err e => Err e
            | Ok vs => Ok (v :: vs)
            end
        end
    end.

(** [parseField(v, bytes, offset, params)] with empty [params]; [bs] is
    [bytes[offset:]] and the result carries [bytes[newOffset:]]. *)
Fixpoint parseField (t : type) (bs : list byte) {struct t}
  : result (parsed * list byte) :=
  match bs with
  | [] => Err (SyntaxError "sequence truncated")
  | b :: rest =>
      match parseTagAndLength b rest with
      | Err e => Err e
      | Ok (tl, rest1) =>
          let n := N.to_nat (length_ tl) in
          let inner := firstn n rest1 in
          let after := skipn n rest1 in
          let truncated := N.of_nat (length rest1) <? length_ tl in
          match t with
          | TRawValue =>
              if truncated then Err (SyntaxError "data truncated")
              else Ok (PRawValue
                         (mkRawValue (class tl) (tag tl) (isCompound tl) inner
                            (firstn (length bs - length after) bs)), after)
          | _ =>
              let '(universalTag0, compoundType) := typeUniversalType t in
              let universalTag :=
                if (universalTag0 =? tagPrintableString)
                   && (class tl =? classUniversal) && isStringTag (tag tl)
                then tag tl else universalTag0 in
              if negb (class tl =? classUniversal)
                 || negb (tag tl =? universalTag)
                 || negb (Bool.eqb (isCompound tl) compoundType)
              then Err (StructuralError "tags don't match")
              else if truncated then Err (SyntaxError "data truncated")
              else
                match t with
                | TObjectIdentifier =>
                    match parseObjectIdentifier inner with
                    | Ok oid => Ok (PObjectIdentifier oid, after)
                    | Err e => Err e
                    end
                | TString =>
                    match parseString universalTag inner with
                    | Ok s => Ok (PString s, after)
                    | Err e => Err e
                    end
                | TRawValue => Err (StructuralError "unknown Go type")
                | TStruct fields =>
                    match parseFields parseField fields inner with
                    | Ok vs => Ok (PStruct vs, after)
                    | Err e => Err e
                    end
                | TSlice elem =>
                    let '(expectedTag, compound) := typeUniversalType elem in
                    match countElements (length inner) expectedTag compound inner 0 with
                    | Err e => Err e
                    | Ok numElements =>
                        match parseElems (parseField elem) numElements inner with
                        | Ok vs => Ok (PSlice vs, after)
                        | Err e => Err e
                        end
                    end
                end
          end
      end
  end.

(** [asn1.Unmarshal(b, &val)] for a [val] of type [t]: the value and the
    rest of the input. *)
Definition Unmarshal (b : list byte) (t : type) : result (parsed * list byte) :=
  parseField t b.

(** [oid.Equal(other)] *)
Definition oid_Equal (a b : list N) : bool :=
  (length a =? length b)%nat && forallb (fun p => fst p =? snd p) (combine a b).

End Asn1.

(* ================================================================== *)
(** * x509.go and util/x509txt/x509txt.go *)

Module X509.

(** [pkix.Extension] *)
Record Extension : Type := mkExtension {
  Id : list N;
  Critical : bool;
  Value : list byte }.

Definition emptyExtension : Extension := mkExtension [] false [].

Definition idCertificatePolicies : list N := [2; 5; 29; 32]%N.
Definition idQtCertificationPracticeStatement : list N :=
  [1; 3; 6; 1; 5; 5; 7; 2; 1]%N.
Definition idQtUnotice : list N := [1; 3; 6; 1; 5; 5; 7; 2; 2]%N.
Definition idSubjectIdentityValidated : list N := [2; 23; 140; 1; 2; 2]%N.

Definition asn1PrintableStringTag : byte := x13.   (* 19 *)
Definition asn1VisibleStringTag : byte := x1a.     (* 26 *)

(** [policyQualifierInfo{id, s}]: the qualifier carries the field tag
    [asn1:"tag:optional,ia5"], of which only [ia5] has an effect. *)
Definition policyQualifierInfo (id : list N) (s : string) : Asn1.value :=
  Asn1.VStruct
    [ (Asn1.noParams, Asn1.VObjectIdentifier id);
      (Asn1.mkParams Asn1.tagIA5String false, Asn1.VString s) ].

(** [policyQualifierInfoSequence{id, []string{s}}] *)
Definition policyQualifierInfoSequence (id : list N) (s : string) : Asn1.value :=
  Asn1.VStruct
    [ (Asn1.noParams, Asn1.VObjectIdentifier id);
      (Asn1.noParams, Asn1.VSlice [Asn1.VString s]) ].

(** [policyInformation{id, qualifiers}]; the qualifiers carry
    [asn1:"omitempty"]. *)
Definition policyInformation (id : list N) (qualifiers : list Asn1.value)
  : Asn1.value :=
  Asn1.VStruct
    [ (Asn1.noParams, Asn1.VObjectIdentifier id);
      (Asn1.mkParams 0 true, Asn1.VSlice qualifiers) ].

(** The value [pi] that [NewCertficationPolicy] marshals. *)
Definition pi (cps unotice : string) : Asn1.value :=
  Asn1.VSlice
    [ policyInformation idSubjectIdentityValidated
        [ policyQualifierInfo idQtCertificationPracticeStatement cps;
          policyQualifierInfoSequence idQtUnotice unotice ] ].

(** [b[i]] and [b[i] = v] for an index already checked to be in range. *)
Definition index (b : list byte) (i : Z) : byte := nth (Z.to_nat i) b x00.
Definition store (b : list byte) (i : Z) (v : byte) : list byte :=
  firstn (Z.to_nat i) b ++ v :: skipn (S (Z.to_nat i)) b.

Definition NewCertficationPolicy (cps unotice : string) : result Extension :=
  match Asn1.Marshal (pi cps unotice) with
  | Err e => Err e
  | Ok asn1Bytes =>
      let i := (Z.of_nat (length asn1Bytes) - Z.of_nat (String.length unotice))%Z in
      if (i <? 2)%Z
         || negb (Z.of_N (Byte.to_N (index asn1Bytes (i - 1)))
                  =? Z.of_nat (String.length unotice))%Z
         || negb (byte_eqb (index asn1Bytes (i - 2)) asn1PrintableStringTag)
      then Err (Errorf "Unexpected asn1 encoding: i=%d asn1=% x"
                  [ArgInt i; ArgBytes asn1Bytes])
      else
        Ok (mkExtension idCertificatePolicies false
              (store asn1Bytes (i - 2) asn1VisibleStringTag))
  end.

End X509.

Module X509txt.

Import X509.

(** The type of [pi] in [ExtractCertificationPolicy]:
    [[]struct{ Id; PolicyQualifiers []struct{ Id; Value asn1.RawValue } }] *)
Definition qualifierType : Asn1.type :=
  Asn1.TStruct [Asn1.TObjectIdentifier; Asn1.TRawValue].
Definition piType : Asn1.type :=
  Asn1.TSlice (Asn1.TStruct [Asn1.TObjectIdentifier; Asn1.TSlice qualifierType]).

Definition oidArg (oid : list N) : fmtArg :=
  ArgBytes (map byte_of_N oid).

(** A qualifier as parsed: its [Id] and its [Value]. *)
Definition qualifier (p : Asn1.parsed) : option (list N * Asn1.RawValue) :=
  match p with
  | Asn1.PStruct [Asn1.PObjectIdentifier id; Asn1.PRawValue v] => Some (id, v)
  | _ => None
  end.

Definition internal : error := ErrorsNew "value does not have the requested type".

(** [ExtractCertificationPolicy]: the two strings or the error. *)
Definition ExtractCertificationPolicy (e : Extension) : result (string * string) :=
  if negb (Asn1.oid_Equal (Id e) idCertificatePolicies)
  then Err (Errorf "ASN OID mismatch" [])
  else
    match Asn1.Unmarshal (Value e) piType with
    | Err err => Err err
    | Ok (_, (_ :: _) as rest) =>
        Err (Errorf "Trailing data after x509 Policy extension: % 02x" [ArgBytes rest])
    | Ok (Asn1.PSlice [Asn1.PStruct [Asn1.PObjectIdentifier id0; Asn1.PSlice q]], []) =>
        if negb (Asn1.oid_Equal id0 idSubjectIdentityValidated)
        then Err (Errorf "Unrecognized OID for x509 Policy extension: %v" [oidArg id0])
        else
          match map qualifier q with
          | [Some (qid0, qv0); Some (qid1, qv1)] =>
              if negb (Asn1.oid_Equal qid0 idQtCertificationPracticeStatement)
              then Err (Errorf "Unrecognized OID for x509 Policy extension CPS: %v"
                          [oidArg qid0])
              else
                match Asn1.Unmarshal (Asn1.FullBytes qv0) Asn1.TString with
                | Err err => Err (Errorf "Error extracting CPS: %v" [ArgError err])
                | Ok (_, (_ :: _) as rest) =>
                    Err (Errorf "Trailing data after x509 Policy extension CPS: % 02x"
                           [ArgBytes rest])
                | Ok (Asn1.PString cps, []) =>
                    if negb (Asn1.oid_Equal qid1 idQtUnotice)
                    then Err (Errorf
                           "Unrecognized OID for x509 Policy extension User Notice: %v"
                           [oidArg qid1])
                    else
                      let b :=
                        match Asn1.Bytes qv1 with
                        | t :: tl =>
                            if byte_eqb t asn1VisibleStringTag
                            then asn1PrintableStringTag :: tl else t :: tl
                        | [] => []
                        end in
                      match Asn1.Unmarshal b Asn1.TString with
                      | Err err =>
                          Err (Errorf "Error extracting user notice: %v" [ArgError err])
                      | Ok (_, (_ :: _) as rest) =>
                          Err (Errorf
                            "Trailing data after x509 Policy extension User Notice: % 02x"
                            [ArgBytes rest])
                      | Ok (Asn1.PString unotice, []) => Ok (cps, unotice)
                      | Ok _ => Err internal
                      end
                | Ok _ => Err internal
                end
          | qs =>
              if negb (length qs =? 2)%nat
              then Err (Errorf
                     "Unexpected count for x509 Policy extension qualifiers: %d"
                     [ArgInt (Z.of_nat (length q))])
              else Err internal
          end
    | Ok (Asn1.PSlice ps, []) =>
        if negb (length ps =? 1)%nat
        then Err (Errorf "Unexpected count for x509 Policy extension: %d"
                    [ArgInt (Z.of_nat (length ps))])
        else Err internal
    | Ok _ => Err internal
    end.

End X509txt.

(* ================================================================== *)
(** * The Tao collaborators *)

Module Tao.

(** [auth.Prin]: a principal, as far as the handler looks at it: its
    rendering and the renderings of its extensions as principal tails. *)
Record Prin : Type := mkPrin {
  PrinString : string;
  Ext : list string }.

(** The [tao.Guard] interface with its two implementations'
    constructors.  [AddRule] changes the guard and may report an error;
    [isACLGuard] is the type test [policy.( *tao.ACLGuard)]. *)
Class Guard (guard : Type) : Type := {
  NewACLGuard : guard;
  NewTemporaryDatalogGuard : guard;
  AddRule : guard -> string -> guard * option error;
  IsAuthorized : guard -> Prin -> string -> list string -> bool;
  GuardString : guard -> string;
  isACLGuard : guard -> bool }.

(** Serialized keys, opaque to the handler. *)
Definition CryptoKey : Type := list byte.
Definition Verifier : Type := list byte.

End Tao.

(* ================================================================== *)
(** * cmd/taoca/policy.go *)

Module PolicyFile.

Import Tao.

Section WithGuard.

Context {guard : Type} {G : Guard guard}.

(** The loop [for line := s.NextLine(); line != ""; line = s.NextLine()];
    every line read consumes input, which bounds the iterations. *)
Fixpoint addRules (fuel : nat) (path : string) (g : guard) (s : Bufio.Scanner)
  : option (result guard) :=
  match fuel with
  | O => None
  | S fuel' =>
      match Policy.NextLine s with
      | None => None
      | Some (line, s') =>
          if (line =? "")%string then Some (Ok g)
          else
            match AddRule g line with
            | (_, Some err) =>
                Some (Err (Errorf ("%s: %s; processing this line:" ++ LF ++ "> %s" ++ LF)
                             [ArgString path; ArgError err; ArgString line]))
            | (g', None) => addRules fuel' path g' s'
            end
      end
  end.

(** [LoadPolicy]; [None] only if a loop has not ended within its fuel. *)
Definition LoadPolicy (fs : Policy.FileSystem) (path : string)
  : option (result guard) :=
  match Policy.NewScanner fs path with
  | Err err => Some (Err err)
  | Ok s =>
      match Policy.NextLine s with
      | None => None
      | Some (t, s') =>
          let rules g := addRules (S (Bufio.remaining s')) path g s' in
          if (t =? "acl")%string then rules NewACLGuard
          else if (t =? "datalog")%string then rules NewTemporaryDatalogGuard
          else if (t =? "")%string then
            Some (Err (Errorf ("%s: first line must specify 'datalog' or 'acl'" ++ LF)
                         [ArgString path]))
          else
            Some (Err (Errorf ("%s: expected 'datalog' or 'acl', found %q" ++ LF)
                         [ArgString path; ArgString t]))
      end
  end.

End WithGuard.

End PolicyFile.

(* ================================================================== *)
(** * ca.proto and cmd/taoca/server.go *)

Module Server.

Import Tao.
Local Open Scope string_scope.

(** ** Messages (ca.proto) *)

Inductive ResponseStatus : Type :=
| TAOCA_OK
| TAOCA_BAD_REQUEST
| TAOCA_REQUEST_DENIED
| TAOCA_ERROR.

Record X509Details : Type := mkX509Details {
  CommonName : option string;
  Country : option string;
  State : option string;
  City : option string;
  Organization : option string;
  OrganizationalUnit : option string }.

(** The fields of [CSR] and [Request] that ca.proto declares [required] are
    present in every message [ReadMessage] accepts. *)
Record CSR : Type := mkCSR {
  PublicKey : list byte;
  Name : X509Details;
  Years : Z;
  IsCa : bool }.

Record Request : Type := mkRequest {
  CSR_ : CSR;
  Signature : option (list byte) }.

(** A [Cert] message is its [x509_cert] bytes. *)
Record Response : Type := mkResponse {
  Status : ResponseStatus;
  ErrorDetail : option string;
  Cert : list (list byte) }.

(** [pkix.Name] and the certificate template handed to the signer. *)
Record pkixName : Type := mkName {
  NCountry : list string;
  NOrganization : list string;
  NOrganizationalUnit : list string;
  NProvince : list string;
  NLocality : list string;
  NCommonName : string }.

Record Template : Type := mkTemplate {
  Subject : pkixName;
  ExtraExtension : X509.Extension;
  IsCA : bool;
  SerialNumber : Z }.

(** ** Pure helpers *)

Definition legalChars : string :=
  "abcdefghijklmnopqrstuvwxyzABCDEFGHIJKLMNOPQRSTUVWXYZ1234567890,:.()_/ ".

(** [sanitize(s, fieldName, &errmsg)]: the returned string and the new
    value of [errmsg]. *)
Definition sanitize (s : option string) (fieldName : string) (errmsg : string)
  : string * string :=
  if negb (errmsg =? "")%string then ("", errmsg)
  else
    match s with
    | None => ("", "missing name." ++ fieldName)
    | Some s =>
        if (s =? "")%string then ("", "empty name." ++ fieldName)
        else if negb (forallb (ContainsRune_byte legalChars) (list_ascii_of_string s))
        then ("", "invalid characters in name." ++ fieldName)
        else if negb (s =? TrimSpace s)%string
        then ("", "invalid whitespace in name." ++ fieldName)
        else (s, errmsg)
    end.

(** The protobuf getters: a nil field reads as the empty string. *)
Definition get (s : option string) : string :=
  match s with Some v => v | None => "" end.

(** [NewX509Name] *)
Definition NewX509Name (p : X509Details) : pkixName :=
  mkName [get (Country p)] [get (Organization p)] [get (OrganizationalUnit p)]
         [get (State p)] [get (City p)] (get (CommonName p)).

(** [binary.Read(r, binary.LittleEndian, &serial)] on the eight bytes read:
    the unsigned little-endian value, reinterpreted as an [int64]. *)
Fixpoint le_uint (b : list byte) : Z :=
  match b with
  | [] => 0
  | x :: rest => Z.of_N (Byte.to_N x) + 256 * le_uint rest
  end.

Definition int64_wrap (z : Z) : Z :=
  ((z + 2 ^ 63) mod 2 ^ 64 - 2 ^ 63)%Z.

Definition int64_le (b : list byte) : Z := int64_wrap (le_uint (firstn 8 b)).

(** [if serial < 0 { serial = ^serial }] *)
Definition fold_serial (serial : Z) : Z :=
  if (serial <? 0)%Z then int64_wrap (Z.lnot serial) else serial.

(** The prompt loop of manual mode over the operator's successive answers;
    [None] when no answer is ever "yes" or "no" and the handler keeps
    prompting. *)
Fixpoint confirmLoop (answers : list string) : option string :=
  match answers with
  | [] => None
  | ok :: rest =>
      if (ok =? "yes")%string || (ok =? "no")%string then Some ok
      else confirmLoop rest
  end.

(** ** Policy statement templates *)

Definition cpsTemplate : string :=
"Experimental Cloudproxy HTTPS Certificate Authority
** Certification Practices Statement **

This document specifies the practices and policies under which certificate
signing requests are approved by some instance of the Experimental Cloudproxy
HTTPS Certificate Authority.

Document Integrity
------------------

This document should be hosted as a file with name <hhh>.txt where <hhh> is the
sha256 hash of this document. If the document hash does not match the file name,
then the contents of this document should not be trusted.

Policies
--------

* Certificates issued will include extended validation (EV) information,
  including links to this document and a user notice document under the
  id-qt-cps and id-qt-unotice extensions. The user notice document will include
  details about the circumstances under which the certificate was issued.
".

Definition cpsManual : string :=
"
* Certificate signing requests are vetted and approved manually by the holder of
  the certficiate authority private signing key.
".

Definition cpsACL : string :=
"
* Certificate signing requests are approved automatically to principals
  as described in the following access-control list:
".

Definition cpsDatalog : string :=
"
* Certificate signing requests are approved automatically to principals
  as described by to the following datalog rules:
".

Definition unoticeTemplate : string :=
"Experimental Cloudproxy HTTPS Certificate Authority
** User Notice **

This document details the circumstances under which some certificate was issued
by some instance of the Experimental Cloudproxy HTTPS Certificate Authority.

Document Integrity
------------------

This document should be hosted as a file with name <hhh>.txt where <hhh> is the
sha256 hash of this document. If the document hash does not match the file name,
then the contents of this document should not be trusted.

Issuance Details
----------------

".

(** ** The handler's world *)

(** What the handler's collaborators answer during one call of
    [doResponse]: the options, the connection, the key parser, the random
    source, the operator, the file system and the signing keys. *)
Record World : Type := mkWorld {
  docurl : string;                     (* options.String["docurl"] *)
  docdir : string;                     (* options.String["docdir"] *)
  manualMode : bool;
  learnMode : bool;
  Sum256hex : list byte -> string;     (* fmt.Sprintf("%x", sha256.Sum256(doc)) *)
  pathJoin : string -> string -> string;               (* path.Join *)
  WritePath : string -> list byte -> option error;     (* util.WritePath *)
  ReadMessage : result Request;        (* conn.ReadMessage(&req) *)
  Peer : option Prin;                  (* conn.Peer() *)
  UnmarshalCryptoKey : list byte -> result CryptoKey;  (* proto.Unmarshal *)
  UnmarshalVerifierProto : CryptoKey -> result Verifier;
  RandRead : result (list byte);       (* the 8 bytes read from rand.Reader *)
  Confirm : list string;               (* the operator's answers *)
  CreateSignedX509 : Verifier -> Template -> result (list byte);
  CertChain : list (list byte) }.      (* caKeys.CertChain("default") *)

(** [publish] *)
Definition publish (W : World) (doc : list byte) : string * option error :=
  let h := Sum256hex W doc in
  let p := pathJoin W (docdir W) (h ++ ".txt") in
  match WritePath W p doc with
  | Some err => ("", Some err)
  | None =>
      let docurl := if negb (HasSuffix (docurl W) "/") then docurl W ++ "/"
                    else docurl W in
      (docurl ++ h ++ ".txt", None)
  end.

(** Control flow of a handler statement: fall through with a value,
    [return b], or block for ever in the prompt loop. *)
Inductive flow (A : Type) : Type :=
| Next (a : A)
| Return (b : bool)
| Blocked.
Arguments Next {A} a.
Arguments Return {A} b.
Arguments Blocked {A}.

Section Handler.

Context {guard : Type} {G : Guard guard}.

(** The connection and the globals [policy] and [knownHashes] (a
    [map[string]bool] that only ever stores [true], kept as the list of
    its keys). *)
Record St : Type := mkSt {
  sent : list Response;
  closed : bool;
  policy : guard;
  knownHashes : list string }.

Definition M (A : Type) : Type := St -> flow A * St.

Definition ret {A} (a : A) : M A := fun st => (Next a, st).
Definition return_ {A} (b : bool) : M A := fun st => (Return b, st).
Definition bind {A B} (m : M A) (k : A -> M B) : M B :=
  fun st =>
    match m st with
    | (Next a, st') => k a st'
    | (Return b, st') => (Return b, st')
    | (Blocked, st') => (Blocked, st')
    end.

Notation "x <- m ;; k" := (bind m (fun x => k))
  (at level 61, m at next level, right associativity).
Notation "m ;; k" := (bind m (fun _ => k))
  (at level 61, right associativity).

Definition when (b : bool) (m : M unit) : M unit := if b then m else ret tt.

(** [sendResponse]: a failed write is only logged. *)
Definition sendResponse (resp : Response) : M unit :=
  fun st => (Next tt, mkSt (sent st ++ [resp])%list (closed st) (policy st) (knownHashes st)).

(** [doError]; [err] is only logged. *)
Definition doError (err : option error) (status : ResponseStatus)
    (detail : string) : M unit :=
  sendResponse (mkResponse status (Some detail) []).

Definition getPolicy : M guard := fun st => (Next (policy st), st).
Definition setPolicy (g : guard) : M unit :=
  fun st => (Next tt, mkSt (sent st) (closed st) g (knownHashes st)).
Definition getKnown : M (list string) := fun st => (Next (knownHashes st), st).
Definition setKnown (k : list string) : M unit :=
  fun st => (Next tt, mkSt (sent st) (closed st) (policy st) k).

(** The prompt loop of manual mode: the operator's first "yes" or "no". *)
Definition prompt (W : World) : M string :=
  fun st =>
    match confirmLoop (Confirm W) with
    | Some ok => (Next ok, st)
    | None => (Blocked, st)
    end.

(** Learn mode (server.go, lines 361-377): the first time the last
    extension of the peer is seen, it is added to the policy as a rule; an
    error of [AddRule] is only printed. *)
Definition learn (prin : Prin) : M unit :=
  match rev (Ext prin) with
  | last :: _ =>
      let prinHash := "Known(" ++ last ++ ")" in
      known <- getKnown ;;
      when (negb (existsb (String.eqb prinHash) known))
        (setKnown (prinHash :: known) ;;
         g <- getPolicy ;;
         setPolicy (fst (AddRule g prinHash)))
  | [] => ret tt
  end.

(** The approval decision (server.go, lines 333-393): the text of the
    certification practices statement, unless the request is denied. *)
Definition approve (W : World) (name : X509Details) : M string :=
  if manualMode W then
    ok <- prompt W ;;
    (if negb (ok =? "yes")%string then
       doError None TAOCA_REQUEST_DENIED "request is denied" ;;
       return_ false
     else ret tt) ;;
    ret (cpsTemplate ++ cpsManual)
  else
    (* Consult guard to enforce policy. *)
    match Peer W with
    | None =>
        doError None TAOCA_REQUEST_DENIED "anonymous request is denied" ;;
        return_ false
    | Some prin =>
        when (learnMode W) (learn prin) ;;
        g <- getPolicy ;;
        (if negb (IsAuthorized g prin "ClaimCertificate"
                    [get (OrganizationalUnit name); get (CommonName name)])
            && negb (IsAuthorized g prin "ClaimCertificate" [])
         then
           doError None TAOCA_REQUEST_DENIED "request is denied" ;;
           return_ false
         else ret tt) ;;
        ret ((if isACLGuard g then cpsTemplate ++ cpsACL
              else cpsTemplate ++ cpsDatalog)
             ++ LF ++ GuardString g)
    end.

(** Publication, signing and the OK response (server.go, lines 396-440). *)
Definition issue (W : World) (req : Request) (subjectKey : Verifier)
    (serial : Z) (cps : string) : M Empty_set :=
  let unotice :=
    match Peer W with
    | Some prin =>
        unoticeTemplate
        ++ "* The certificate was requested by the following Tao principal:"
        ++ LF ++ LF ++ "   " ++ PrinString prin ++ LF
    | None =>
        unoticeTemplate ++ "* The certificate was requested anonymously." ++ LF
    end in
  let '(cpsUrl, err) := publish W (bytes cps) in
  let '(unoticeUrl, err) := publish W (bytes unotice) in
  match X509.NewCertficationPolicy cpsUrl unoticeUrl with
  | Err err =>
      doError (Some err) TAOCA_ERROR
        "failed to generate certificate policy extension" ;;
      return_ false
  | Ok ext =>
      let template :=
        mkTemplate (NewX509Name (Name (CSR_ req))) ext (IsCa (CSR_ req)) serial in
      match CreateSignedX509 W subjectKey template with
      | Err err =>
          doError (Some err) TAOCA_ERROR "failed to generate certificate" ;;
          return_ false
      | Ok cert =>
          let resp := mkResponse TAOCA_OK None (cert :: CertChain W) in
          sendResponse resp ;;
          return_ true
      end
  end.

(** The serial number (server.go, lines 319-326): eight random bytes as an
    [int64], folded when negative.  When the read fails an ERROR response is
    sent and the handler goes on with the zero value of [serial]. *)
Definition makeSerial (W : World) : M Z :=
  serial <- match RandRead W with
            | Err err =>
                doError (Some err) TAOCA_ERROR
                  "could not generate random serial number" ;;
                ret 0%Z
            | Ok b => ret (int64_le b)
            end ;;
  ret (fold_serial serial).

(** The body of [doResponse]: every path through it ends in a [return]. *)
Definition doResponse_body (W : World) : M Empty_set :=
  match ReadMessage W with
  | Err err =>
      doError (Some err) TAOCA_BAD_REQUEST "failed to read request" ;;
      return_ false
  | Ok req =>
  let peer := match Peer W with Some p => PrinString p | None => "anonymous" end in
  let errmsg := "" in
  (* Check whether the CSR is well-formed *)
  let name := Name (CSR_ req) in
  let '(_, errmsg) := sanitize (Country name) "Country" errmsg in
  let '(_, errmsg) := sanitize (State name) "State/Province" errmsg in
  let '(_, errmsg) := sanitize (City name) "City/Locality" errmsg in
  let '(_, errmsg) := sanitize (Organization name) "Organization" errmsg in
  let '(ou, errmsg) := sanitize (OrganizationalUnit name) "OrganizationalUnit" errmsg in
  let '(cn, errmsg) := sanitize (CommonName name) "CommonName" errmsg in
  let years := Years (CSR_ req) in
  let errmsg := if (years <=? 0)%Z then "invalid validity period" else errmsg in
  if negb (errmsg =? "")%string then
    doError None TAOCA_BAD_REQUEST errmsg ;;
    return_ false
  else
  match UnmarshalCryptoKey W (PublicKey (CSR_ req)) with
  | Err err =>
      doError (Some err) TAOCA_BAD_REQUEST "can't unmarshal key" ;;
      return_ false
  | Ok ck =>
  match UnmarshalVerifierProto W ck with
  | Err err =>
      doError (Some err) TAOCA_BAD_REQUEST "can't unmarshal key" ;;
      return_ false
  | Ok subjectKey =>
      serial <- makeSerial W ;;
      cps <- approve W name ;;
      issue W req subjectKey serial cps
  end end end.

(** [doResponse]: the body, then the deferred [conn.Close()].  The result
    is [None] when the handler blocks in the prompt loop. *)
Definition doResponse (W : World) (st : St) : option bool * St :=
  match doResponse_body W st with
  | (Return b, st') =>
      (Some b, mkSt (sent st') true (policy st') (knownHashes st'))
  | (Next a, _) => match a with end
  | (Blocked, st') => (None, st')
  end.

End Handler.

End Server.


(* ================================================================== *)
(** * Request validation *)

Module Validation.

Import Tao Server.
Local Open Scope string_scope.

(** The ways a subject field can fail, in the order [sanitize] tests them. *)
Inductive failure : Type :=
| Missing
| Empty
| InvalidCharacters
| InvalidWhitespace.

(** What the specification calls the check of one field, on the field
    alone. *)
Definition check (s : option string) : option failure :=
  match s with
  | None => Some Missing
  | Some v =>
      if (v =? "")%string then Some Empty
      else if negb (forallb (ContainsRune_byte legalChars) (list_ascii_of_string v))
      then Some InvalidCharacters
      else if negb (v =? TrimSpace v)%string then Some InvalidWhitespace
      else None
  end.

Definition reason (f : failure) : string :=
  match f with
  | Missing => "missing "
  | Empty => "empty "
  | InvalidCharacters => "invalid characters in "
  | InvalidWhitespace => "invalid whitespace in "
  end.

(** The message of a failure names the field. *)
Definition message (f : failure) (fieldName : string) : string :=
  reason f ++ "name." ++ fieldName.

(** The six subject fields under the names [doResponse] reports them by, in
    the order the specification lists them. *)
Definition fields (name : X509Details) : list (string * option string) :=
  [ ("Country", Country name);
    ("State/Province", State name);
    ("City/Locality", City name);
    ("Organization", Organization name);
    ("OrganizationalUnit", OrganizationalUnit name);
    ("CommonName", CommonName name) ].

(** The first field, in order, whose check fails. *)
Fixpoint first_failure (fs : list (string * option string))
  : option (string * failure) :=
  match fs with
  | [] => None
  | (fieldName, v) :: rest =>
      match check v with
      | Some f => Some (fieldName, f)
      | None => first_failure rest
      end
  end.

(** The value of [errmsg] in [doResponse] after the six calls of
    [sanitize]. *)
Definition errmsg_after_sanitize (name : X509Details) : string :=
  let errmsg := "" in
  let '(_, errmsg) := sanitize (Country name) "Country" errmsg in
  let '(_, errmsg) := sanitize (State name) "State/Province" errmsg in
  let '(_, errmsg) := sanitize (City name) "City/Locality" errmsg in
  let '(_, errmsg) := sanitize (Organization name) "Organization" errmsg in
  let '(_, errmsg) := sanitize (OrganizationalUnit name) "OrganizationalUnit" errmsg in
  let '(_, errmsg) := sanitize (CommonName name) "CommonName" errmsg in
  errmsg.

(** ... and after the test of [years]. *)
Definition errmsg_after_checks (req : Request) : string :=
  if (Years (CSR_ req) <=? 0)%Z then "invalid validity period"
  else errmsg_after_sanitize (Name (CSR_ req)).

(** The response [doError] sends. *)
Definition errorResponse (status : ResponseStatus) (detail : string) : Response :=
  mkResponse status (Some detail) [].

(** What [doResponse] leaves behind after it has sent [resps] and returned. *)
Definition after {guard : Type} (st : St (guard := guard)) (resps : list Response)
  : St (guard := guard) :=
  mkSt (sent st ++ resps)%list true (policy st) (knownHashes st).

End Validation.

(* ================================================================== *)
(** * Example worlds *)

Module Examples.

Import Tao Server.
Local Open Scope string_scope.

(** A guard that keeps its rules as text and authorizes the principals whose
    rendering is one of them. *)
#[global] Instance listGuard : Guard (list string) := {|
  NewACLGuard := [];
  NewTemporaryDatalogGuard := [];
  AddRule := fun g rule =>
    if (rule =? "")%string then (g, Some (ErrorsNew "empty rule"))
    else ((g ++ [rule])%list, None);
  IsAuthorized := fun g p _ _ => existsb (String.eqb (PrinString p)) g;
  GuardString := fun g => String.concat LF g;
  isACLGuard := fun _ => true |}.

Definition details : X509Details :=
  mkX509Details (Some "svc.example") (Some "US") (Some "MA") (Some "Oakham")
    (Some "Google") (Some "Eng").

Definition request (name : X509Details) (years : Z) : Request :=
  mkRequest (mkCSR [x01] name years false) None.

(** Manual mode and an operator who approves; the request read, the outcome
    of reading the random source and the outcome of every file write are
    parameters, the other collaborators succeed. *)
Definition world (req : result Request) (rand : result (list byte))
    (write : option error) : World :=
  mkWorld "https://0.0.0.0:8443/security/" "/etc/tao/https/docs/security/"
    true false
    (fun _ => "00") (fun d f => d ++ f) (fun _ _ => write)
    req None
    (fun b => Ok b) (fun ck => Ok ck)
    rand
    ["yes"]
    (fun _ _ => Ok [x30])
    [[x31]].

Definition random8 : list byte := [xff; xff; xff; xff; xff; xff; xff; xff].

Definition st0 : St (guard := list string) := mkSt [] false [] [].

End Examples.

(* ================================================================== *)
(** * Properties of handler statements *)

Module HandlerLogic.

Import Tao Server Validation.
Local Open Scope string_scope.

Section WithGuard.

Context {guard : Type} {G : Guard guard}.

(** The invariant of the responses the handler sends in world [W]: an OK
    response carries the certificate the signer returned followed by the
    issuer's chain and no error detail; any other response carries no
    certificate and a non-empty error detail. *)
Definition response_invariant (W : World) (r : Response) : Prop :=
  match Status r with
  | TAOCA_OK =>
      ErrorDetail r = None /\
      exists subjectKey template cert,
        CreateSignedX509 W subjectKey template = Ok cert /\
        Cert r = cert :: CertChain W
  | _ =>
      Cert r = [] /\
      exists detail, ErrorDetail r = Some detail /\ detail <> ""
  end.

(** [m] only appends responses, and the ones it appends satisfy [P]. *)
Definition sends (P : Response -> Prop) {A} (m : M (guard := guard) A) : Prop :=
  forall st, exists resps,
    sent (snd (m st)) = (sent st ++ resps)%list /\ Forall P resps.

(** [m] sends nothing when it falls through or blocks, and exactly one
    response when it returns. *)
Definition one_shot {A} (m : M (guard := guard) A) : Prop :=
  forall st,
    match m st with
    | (Return _, st') => exists resp, sent st' = (sent st ++ [resp])%list
    | (_, st') => sent st' = sent st
    end.

End WithGuard.

End HandlerLogic.

(* ================================================================== *)
(** * The rule file as a list of logical lines *)

Module RuleFile.

Import Tao.
Local Open Scope string_scope.

(** The example of the specification:
    ["# comment\nline one\\\ncontinued\n\nline two\n"]. *)
Definition example : string :=
  "# comment" ++ LF ++ "line one\" ++ LF ++ "continued" ++ LF ++ LF
  ++ "line two" ++ LF.

(** The logical lines [NextLine] returns from [s] on, up to the end-of-input
    sentinel. *)
Fixpoint logical_lines_fuel (fuel : nat) (s : Bufio.Scanner) : list string :=
  match fuel with
  | O => []
  | S fuel' =>
      match Policy.NextLine s with
      | Some (line, s') =>
          if (line =? "")%string then [] else line :: logical_lines_fuel fuel' s'
      | None => []
      end
  end.

Definition logical_lines (s : Bufio.Scanner) : list string :=
  logical_lines_fuel (S (Bufio.remaining s)) s.

(** The input the scanner has yet to deliver: its buffer, then what the
    reader still holds. *)
Definition stream (s : Bufio.Scanner) : list byte :=
  (Bufio.buf s ++ concat (Bufio.rd s))%list.

(** The token [split] cuts from the whole of [data], with the input left
    after it. *)
Definition next_token (data : list byte) : option (list byte * list byte) :=
  match Policy.split data true with
  | (advance, Some tok, _) => Some (tok, skipn (Z.to_nat advance) data)
  | (_, None, _) => None
  end.

(** The first logical line of [data] and the input left after it: the loop
    of [NextLine] over [next_token]. *)
Fixpoint next_line_fuel (fuel : nat) (data : list byte) : string * list byte :=
  match fuel with
  | O => ("", [])
  | S fuel' =>
      match next_token data with
      | Some (tok, rest) =>
          let t := TrimSpace (str tok) in
          if negb (String.length t =? 0)%nat then (t, rest)
          else next_line_fuel fuel' rest
      | None => ("", [])
      end
  end.

Definition next_line (data : list byte) : string * list byte :=
  next_line_fuel (S (length data)) data.

(** The states [NextLine] leaves a scanner in: it splits with [split], and
    either no error is recorded or the reader is exhausted and [io.EOF] is
    recorded. *)
Definition reading (s : Bufio.Scanner) : Prop :=
  Bufio.splitFn s = Policy.split /\
  (Bufio.err s = None \/ Bufio.err s = Some EOF /\ Bufio.rd s = []).

(** [r] is the result of scanning [s]: the token of the whole remaining
    input, or [false] when it holds none. *)
Definition scanned (s : Bufio.Scanner) (r : bool * Bufio.Scanner) : Prop :=
  reading (snd r) /\
  match next_token (stream s) with
  | Some (tok, rest) =>
      fst r = true /\ Bufio.token (snd r) = tok /\ stream (snd r) = rest
  | None => fst r = false /\ stream (snd r) = []
  end.

Section WithGuard.

Context {guard : Type} {G : Guard guard}.

(** Feeding rules to a guard one at a time: the guard that holds them all, or
    the first line [AddRule] refuses together with its error. *)
Fixpoint add_rules (g : guard) (lines : list string) : guard + string * error :=
  match lines with
  | [] => inl g
  | line :: rest =>
      match AddRule g line with
      | (_, Some err) => inr (line, err)
      | (g', None) => add_rules g' rest
      end
  end.

(** The result of loading the rules [lines] into [g]. *)
Definition loaded (path : string) (g : guard) (lines : list string) : result guard :=
  match add_rules g lines with
  | inl g' => Ok g'
  | inr (line, err) =>
      Err (Errorf ("%s: %s; processing this line:" ++ LF ++ "> %s" ++ LF)
             [ArgString path; ArgError err; ArgString line])
  end.

End WithGuard.

(** An error names a string when the string is one of the arguments its
    message is formatted from. *)
Definition names (e : error) (s : string) : Prop :=
  match e with
  | Errorf _ args => In (ArgString s) args
  | _ => False
  end.

(** A file system with a single file, read in one piece. *)
Definition one_file (name : string) (content : string) : Policy.FileSystem :=
  fun path =>
    if (path =? name)%string then Ok [bytes content]
    else Err (ExternalError "no such file").

End RuleFile.

(* ================================================================== *)
(** * The layout of the encoded extension *)

Module Der.

Import Asn1.

(** The length octets of [marshalTagAndLength]. *)
Definition lenbytes (n : N) : list byte :=
  if (128 <=? n)%N
  then byte_of_N (N.lor 128 (N.of_nat (lengthLength n))) :: marshalLength n
  else [byte_of_N n].

(** An identifier octet, the length of [body] and [body]. *)
Definition tlv (b : byte) (body : list byte) : list byte :=
  b :: (lenbytes (N.of_nat (length body)) ++ body)%list.

(** The encoded object identifiers of the extension. *)
Definition oidSubjectIdentityValidated : list byte :=
  [x06; x06; x67; x81; x0c; x01; x02; x02].
Definition oidCPS : list byte :=
  [x06; x08; x2b; x06; x01; x05; x05; x07; x02; x01].
Definition oidUnotice : list byte :=
  [x06; x08; x2b; x06; x01; x05; x05; x07; x02; x02].

(** The CPS qualifier (an IA5String, identifier octet 0x16), and the
    UserNotice qualifier whose string has the identifier octet [t]. *)
Definition cpsQualifier (cps : string) : list byte :=
  tlv x30 (oidCPS ++ tlv x16 (bytes cps)).
Definition noticeString (t : byte) (unotice : string) : list byte :=
  tlv t (bytes unotice).
Definition unoticeQualifier (t : byte) (unotice : string) : list byte :=
  tlv x30 (oidUnotice ++ tlv x30 (noticeString t unotice)).

(** The certificate-policies value: a sequence of one policy information
    with the two qualifiers. *)
Definition qualifiers (t : byte) (cps unotice : string) : list byte :=
  (cpsQualifier cps ++ unoticeQualifier t unotice)%list.
Definition policyInformation (t : byte) (cps unotice : string) : list byte :=
  tlv x30 (oidSubjectIdentityValidated ++ tlv x30 (qualifiers t cps unotice)).
Definition encoding (t : byte) (cps unotice : string) : list byte :=
  tlv x30 (policyInformation t cps unotice).

(** A list with a hole for the string of the UserNotice at its end: what
    stands before the hole does not depend on the string's identifier
    octet. *)
Definition holed (unotice : string) (X : byte -> list byte) : Prop :=
  exists F, forall t, X t = (F ++ noticeString t unotice)%list.

(** A list short enough for the parser to accept its length. *)
Definition fits (l : list byte) : Prop := (N.of_nat (length l) < 2 ^ 31)%N.

(** The [asn1.RawValue]s the parser finds in the two qualifiers. *)
Definition rawCPS (cps : string) : RawValue :=
  mkRawValue 0 22 false (bytes cps) (tlv x16 (bytes cps)).
Definition rawNotice (t : byte) (unotice : string) : RawValue :=
  mkRawValue 0 16 true (noticeString t unotice) (tlv x30 (noticeString t unotice)).

(** Printable ASCII: the characters from space to tilde. *)
Definition isPrintableASCII (s : string) : bool :=
  forallb (fun c => (32 <=? Byte.to_N c)%N && (Byte.to_N c <=? 126)%N) (bytes s).

(** The strings the codec round-trips: [cps] is ASCII, [unotice] is made of
    PrintableString characters. *)
Definition isIA5 (s : string) : bool :=
  forallb (fun c => Byte.to_N c <? 128)%N (bytes s).
Definition isPrintableString (s : string) : bool :=
  forallb isPrintable (bytes s).

End Der.

(* ================================================================== *)
(** * The logical lines of a rule file *)

Module LogicalLines.

Import RuleFile.
Local Open Scope string_scope.

(** All the logical lines of [data]: the lines [next_line] cuts, up to the
    end-of-input sentinel. *)
Fixpoint all_lines_fuel (fuel : nat) (data : list byte) : list string :=
  match fuel with
  | O => []
  | S fuel' =>
      let '(t, rest) := next_line data in
      if (t =? "")%string then [] else t :: all_lines_fuel fuel' rest
  end.

Definition all_lines (data : list byte) : list string :=
  all_lines_fuel (S (length data)) data.

(** The logical lines [NextLine] returns for a file whose content is [data],
    read in one piece, and for a file read in the pieces [chunks]. *)
Definition scan (data : list byte) : list string :=
  logical_lines (Bufio.NewScanner [data] Policy.split).
Definition scan_chunks (chunks : list (list byte)) : list string :=
  logical_lines (Bufio.NewScanner chunks Policy.split).





(** The logical line of a token: the token trimmed, unless that is
    empty. *)
Definition line_of (tok : list byte) : list string :=
  if (TrimSpace (str tok) =? "")%string then [] else [TrimSpace (str tok)].


End LogicalLines.
(* ================================================================== *)
(** * The default policy (cmd/taoca/policy.go) *)

Module PolicyDefaults.

Local Open Scope string_scope.

(** The double quote, which a string literal cannot hold. *)
Definition DQ : string := String "034"%char EmptyString.

(** [defPolicy], the rule file [main] writes when none exists. *)
Definition defPolicy : string :=
"# This file defines the certificate-granting policy for some instance of a
# Cloudproxy HTTPS Certificate Authority. The format is as follows:
# 
# * Comment lines and blank lines are ignored. 
# * Most whitespace is ignored.
# * A '\' at the end of a non-comment line serves as a line continuation.
# * The first line specifies the type of policy, either " ++ DQ ++ "acl" ++ DQ ++ " or "
++ DQ ++ "datalog" ++ DQ ++ ".
# * Remaining lines introduce rules, one per line.
#
# For an ACL-based guard, each rule is a triplet containing OU, CN, Prin.
# A wildcard '*' can be used for the OU and/or CN.
# For example:
#   ACL
#   Authorized(" ++ DQ ++ "ClaimCertificate" ++ DQ ++ ", key([...]).Program([...]), "
++ DQ ++ "Cloudproxy Password Checker" ++ DQ ++ " " ++ DQ ++ "192.168.1.3"
++ DQ ++ ")
#   Authorized(" ++ DQ ++ "ClaimCertificate" ++ DQ ++ ", key([...]).Program([...]), "
++ DQ ++ "Cloudproxy Netlog Viewer" ++ DQ ++ ", " ++ DQ ++ "192.168.1.4"
++ DQ ++ ")
#   Authorized(" ++ DQ ++ "ClaimCertificate" ++ DQ ++ ", key([...]).Program([...]))
#
# For a Datalog-driven guard, each rule is a datalog formula.
#   Datalog
#   forall P: forall OU: forall CN: \
#              TrustedHttpsServerInstance(P, OU, CN) \
#              implies Authorized(" ++ DQ ++ "ClaimCertificate" ++ DQ ++ ", P, OU, CN)
#   forall P: forall OU: forall CN: forall Hash: \
#           TrustedHost(Host) and TrustedHttpsServer(Hash, OU, CN) \
#              and Subprin(P, Host, Hash) \
#              implies TrustedHttpsServerInstance(P, OU, CN) \
#   TrustedHttpsServer(ext.Program([....]))
#
acl
".

End PolicyDefaults.

(* ================================================================== *)
(** * Proofs *)

Import Tao Server Validation.
Local Open Scope string_scope.

(* ------------------------------------------------------------------ *)
(** ** Sanitization *)

Lemma message_not_empty f fieldName : (message f fieldName =? "")%string = false.
Proof. destruct f; reflexivity. Qed.

(** Short circuit: once a message is recorded, [sanitize] looks at nothing. *)
Lemma sanitize_short_circuit s fieldName errmsg :
  (errmsg =? "")%string = false -> sanitize s fieldName errmsg = ("", errmsg).
Proof. intros H. unfold sanitize. now rewrite H. Qed.

(** With no message recorded, [sanitize] is the check of the field. *)
Lemma sanitize_check s fieldName :
  sanitize s fieldName "" =
  match check s with
  | Some f => ("", message f fieldName)
  | None => (get s, "")
  end.
Proof.
  unfold sanitize, check. simpl.
  destruct s as [v|]; [|reflexivity].
  destruct (v =? "")%string; [reflexivity|].
  destruct (forallb _ _); simpl; [|reflexivity].
  destruct (v =? TrimSpace v)%string; reflexivity.
Qed.

Lemma sanitize_step s fieldName errmsg :
  snd (sanitize s fieldName errmsg) =
  if (errmsg =? "")%string
  then match check s with Some f => message f fieldName | None => "" end
  else errmsg.
Proof.
  destruct (errmsg =? "")%string eqn:E.
  - apply String.eqb_eq in E. subst. rewrite sanitize_check.
    now destruct (check s).
  - now rewrite sanitize_short_circuit.
Qed.

(** The message the six calls leave behind is the message of the first
    failure in field order. *)
Lemma errmsg_after_sanitize_first_failure name :
  errmsg_after_sanitize name =
  match first_failure (fields name) with
  | Some (fieldName, f) => message f fieldName
  | None => ""
  end.
Proof.
  unfold errmsg_after_sanitize.
  repeat match goal with
         | |- context [sanitize ?s ?f ?e] =>
             let H := fresh in
             pose proof (sanitize_step s f e) as H;
             destruct (sanitize s f e); simpl in H; subst
         end.
  unfold fields, first_failure.
  repeat match goal with
         | |- context [check ?s] => destruct (check s)
         end; simpl; rewrite ?message_not_empty; reflexivity.
Qed.


(* ------------------------------------------------------------------ *)
(** ** The handler on a request that fails validation *)

Section HandlerValidation.

Context {guard : Type} {G : Guard guard}.

Lemma doResponse_invalid (W : World) (st : St) (req : Request) :
  ReadMessage W = Ok req ->
  (errmsg_after_checks req =? "")%string = false ->
  doResponse W st =
  (Some false,
   after st [errorResponse TAOCA_BAD_REQUEST (errmsg_after_checks req)]).
Proof.
  intros Hread Hmsg.
  unfold doResponse, doResponse_body. rewrite Hread.
  unfold errmsg_after_checks, errmsg_after_sanitize in Hmsg |- *.
  repeat match goal with
         | |- context [sanitize ?s ?f ?e] => destruct (sanitize s f e)
         end.
  destruct (Years (CSR_ req) <=? 0)%Z; simpl in Hmsg |- *.
  - reflexivity.
  - rewrite Hmsg. reflexivity.
Qed.

End HandlerValidation.

Lemma first_failure_app pre fieldName v post :
  Forall (fun x => check (snd x) = None) pre ->
  first_failure (pre ++ (fieldName, v) :: post)%list =
  match check v with
  | Some f => Some (fieldName, f)
  | None => first_failure post
  end.
Proof.
  induction 1 as [|[n x] pre Hx _ IH]; simpl; [reflexivity|].
  simpl in Hx. now rewrite Hx.
Qed.

Lemma first_failure_absent fs :
  In None (map snd fs) -> first_failure fs <> None.
Proof.
  induction fs as [|[n v] fs IH]; simpl; [tauto|].
  intros [->|H]; simpl; [discriminate|].
  destruct (check v); [discriminate|auto].
Qed.

Section HandlerClaims.

Context {guard : Type} {G : Guard guard}.

(** The answer to a request that fails validation. *)
Lemma invalid_request_response (W : World) (st : St (guard := guard)) (req : Request) :
  ReadMessage W = Ok req ->
  first_failure (fields (Name (CSR_ req))) <> None \/ (Years (CSR_ req) <= 0)%Z ->
  doResponse W st =
    (Some false,
     after st
       [errorResponse TAOCA_BAD_REQUEST
          (if (Years (CSR_ req) <=? 0)%Z then "invalid validity period"
           else match first_failure (fields (Name (CSR_ req))) with
                | Some (fieldName, f) => reason f ++ "name." ++ fieldName
                | None => ""
                end)]).
Proof.
  intros Hread Hfail.
  rewrite (doResponse_invalid W st Hread); unfold errmsg_after_checks;
    rewrite errmsg_after_sanitize_first_failure.
  - destruct (first_failure (fields (Name (CSR_ req)))) as [[n f]|]; reflexivity.
  - destruct (Years (CSR_ req) <=? 0)%Z eqn:Hy; [reflexivity|].
    destruct (first_failure (fields (Name (CSR_ req)))) as [[n f]|].
    + apply message_not_empty.
    + destruct Hfail as [H|H]; [congruence|].
      apply Z.leb_gt in Hy. lia.
Qed.

(** C5 (amended).  [sanitize] short-circuits once a message is recorded; the
    six calls leave the message of the first failing field in the order
    Country, State, City, Organization, OrganizationalUnit, CommonName, and
    that message names the field; a request with a failing field or with
    non-positive [years] is answered by one BAD_REQUEST whose detail is that
    message when [years] is positive and "invalid validity period" when it is
    not. *)
Theorem C5_bad_request_detail (W : World) (st : St (guard := guard)) (req : Request) :
  ReadMessage W = Ok req ->
  first_failure (fields (Name (CSR_ req))) <> None \/ (Years (CSR_ req) <= 0)%Z ->
  (forall s fieldName errmsg,
      errmsg <> "" -> sanitize s fieldName errmsg = ("", errmsg)) /\
  errmsg_after_sanitize (Name (CSR_ req)) =
    match first_failure (fields (Name (CSR_ req))) with
    | Some (fieldName, f) => reason f ++ "name." ++ fieldName
    | None => ""
    end /\
  doResponse W st =
    (Some false,
     after st
       [errorResponse TAOCA_BAD_REQUEST
          (if (Years (CSR_ req) <=? 0)%Z then "invalid validity period"
           else errmsg_after_sanitize (Name (CSR_ req)))]).
Proof.
  intros Hread Hfail. split; [|split].
  - intros s f e He. apply sanitize_short_circuit.
    now apply String.eqb_neq.
  - apply errmsg_after_sanitize_first_failure.
  - rewrite errmsg_after_sanitize_first_failure.
    now apply invalid_request_response.
Qed.

(** C10 (amended).  A request with an absent subject field is answered by one
    BAD_REQUEST; its detail is "missing name." followed by the name of the
    first absent field whenever every field checked before it passes and
    [years] is positive. *)
Theorem C10_absent_field_rejected (W : World) (st : St (guard := guard)) (req : Request) :
  ReadMessage W = Ok req ->
  In None (map snd (fields (Name (CSR_ req)))) ->
  exists detail,
    doResponse W st = (Some false, after st [errorResponse TAOCA_BAD_REQUEST detail]) /\
    (forall pre fieldName post,
        fields (Name (CSR_ req)) = (pre ++ (fieldName, None) :: post)%list ->
        Forall (fun x => check (snd x) = None) pre ->
        (0 < Years (CSR_ req))%Z ->
        detail = "missing name." ++ fieldName).
Proof.
  intros Hread Habs.
  pose proof (first_failure_absent _ Habs) as Hff.
  eexists. split; [exact (invalid_request_response W st Hread (or_introl Hff))|].
  intros pre fieldName post Hfields Hpre Hy.
  apply Z.leb_gt in Hy. rewrite Hy, Hfields.
  now rewrite first_failure_app.
Qed.

End HandlerClaims.

(* ------------------------------------------------------------------ *)
(** ** Every response satisfies the invariant *)

Import HandlerLogic.

Section SendsLemmas.

Context {guard : Type} {G : Guard guard}.
Variable P : Response -> Prop.

Local Abbreviation M := (M (guard := guard)).

Lemma sends_ret A (a : A) : sends P (ret a : M A).
Proof. intros st. exists []. simpl. now rewrite app_nil_r. Qed.

Lemma sends_return A (b : bool) : sends P (return_ b : M A).
Proof. intros st. exists []. simpl. now rewrite app_nil_r. Qed.

Lemma sends_bind A B (m : M A) (k : A -> M B) :
  sends P m -> (forall a, sends P (k a)) -> sends P (bind m k).
Proof.
  intros Hm Hk st. unfold bind.
  destruct (Hm st) as (r1 & E1 & F1).
  destruct (m st) as [[a|b|] st1]; simpl in E1.
  - destruct (Hk a st1) as (r2 & E2 & F2).
    exists (r1 ++ r2)%list. rewrite E2, E1, app_assoc.
    split; [reflexivity|]. now apply Forall_app.
  - now exists r1.
  - now exists r1.
Qed.

Lemma sends_sendResponse (r : Response) : P r -> sends P (sendResponse r : M unit).
Proof. intros Hr st. exists [r]. simpl. auto. Qed.

Lemma sends_when (b : bool) (m : M unit) : sends P m -> sends P (when b m).
Proof. destruct b; simpl; [auto|]. intros _. apply sends_ret. Qed.

Lemma sends_getPolicy : sends P (getPolicy : M guard).
Proof. intros st. exists []. simpl. now rewrite app_nil_r. Qed.

Lemma sends_setPolicy g : sends P (setPolicy g : M unit).
Proof. intros st. exists []. simpl. now rewrite app_nil_r. Qed.

Lemma sends_getKnown : sends P (getKnown : M (list string)).
Proof. intros st. exists []. simpl. now rewrite app_nil_r. Qed.

Lemma sends_setKnown k : sends P (setKnown k : M unit).
Proof. intros st. exists []. simpl. now rewrite app_nil_r. Qed.

Lemma sends_prompt W : sends P (prompt W : M string).
Proof.
  intros st. exists []. unfold prompt.
  destruct (confirmLoop (Confirm W)); simpl; now rewrite app_nil_r.
Qed.

Lemma sends_learn prin : sends P (learn prin : M unit).
Proof.
  unfold learn. destruct (rev (Ext prin)); [apply sends_ret|].
  apply sends_bind; [apply sends_getKnown|]. intros known.
  apply sends_when.
  apply sends_bind; [apply sends_setKnown|]. intros _.
  apply sends_bind; [apply sends_getPolicy|]. intros g.
  apply sends_setPolicy.
Qed.

End SendsLemmas.

Section InvariantProofs.

Context {guard : Type} {G : Guard guard}.
Variable W : World.

Local Abbreviation M := (M (guard := guard)).
Local Abbreviation inv := (response_invariant W).

Lemma sends_doError err status detail :
  status <> TAOCA_OK -> detail <> "" ->
  sends inv (doError err status detail : M unit).
Proof.
  intros Hs Hd. apply sends_sendResponse.
  unfold response_invariant; simpl.
  destruct status; try congruence; (split; [reflexivity|now exists detail]).
Qed.

Lemma sends_refuse A err status detail (b : bool) :
  status <> TAOCA_OK -> detail <> "" ->
  sends inv (bind (doError err status detail) (fun _ => return_ b) : M A).
Proof.
  intros. apply sends_bind; [now apply sends_doError|].
  intros _. apply sends_return.
Qed.

Ltac refuse := apply sends_refuse; [discriminate|discriminate].

Lemma sends_makeSerial : sends inv (makeSerial W : M Z).
Proof.
  unfold makeSerial.
  apply sends_bind; [|intros; apply sends_ret].
  destruct (RandRead W).
  - apply sends_ret.
  - apply sends_bind; [|intros; apply sends_ret].
    apply sends_doError; discriminate.
Qed.

Lemma sends_approve name : sends inv (approve W name : M string).
Proof.
  unfold approve. destruct (manualMode W).
  - apply sends_bind; [apply sends_prompt|]. intros ok.
    apply sends_bind; [|intros; apply sends_ret].
    destruct (negb _); [refuse|apply sends_ret].
  - destruct (Peer W) as [prin|]; [|refuse].
    apply sends_bind; [apply sends_when, sends_learn|]. intros _.
    apply sends_bind; [apply sends_getPolicy|]. intros g.
    apply sends_bind; [|intros; apply sends_ret].
    destruct (_ && _); [refuse|apply sends_ret].
Qed.

Lemma sends_issue req subjectKey serial cps :
  sends inv (issue W req subjectKey serial cps : M Empty_set).
Proof.
  unfold issue.
  destruct (publish W _) as [cpsUrl e1].
  destruct (publish W _) as [unoticeUrl e2].
  destruct (X509.NewCertficationPolicy cpsUrl unoticeUrl) as [ext|]; [|refuse].
  destruct (CreateSignedX509 W subjectKey _) as [cert|] eqn:Hsign; [|refuse].
  apply sends_bind; [|intros; apply sends_return].
  apply sends_sendResponse. unfold response_invariant; simpl.
  split; [reflexivity|]. eauto.
Qed.

Lemma sends_doResponse_body : sends inv (doResponse_body W : M Empty_set).
Proof.
  unfold doResponse_body.
  destruct (ReadMessage W) as [req|]; [|refuse].
  repeat match goal with
         | |- context [sanitize ?s ?f ?e] => destruct (sanitize s f e)
         end.
  match goal with
  | |- context [negb (?e =? "")%string] => destruct (e =? "")%string eqn:He
  end; simpl.
  - destruct (UnmarshalCryptoKey W _); [|refuse].
    destruct (UnmarshalVerifierProto W _); [|refuse].
    apply sends_bind; [apply sends_makeSerial|]. intros serial.
    apply sends_bind; [apply sends_approve|]. intros cps.
    apply sends_issue.
  - apply sends_refuse; [discriminate|].
    now apply String.eqb_neq.
Qed.

(** C6.  Every response [doResponse] sends satisfies the invariant: status OK
    comes with the freshly signed certificate followed by the issuer chain
    and with no error detail; any other status comes with no certificate and
    with a non-empty error detail. *)
Theorem C6_response_invariant (st : St (guard := guard)) :
  exists resps,
    sent (snd (doResponse W st)) = (sent st ++ resps)%list /\
    Forall (response_invariant W) resps.
Proof.
  destruct (sends_doResponse_body st) as (resps & E & F).
  exists resps. split; [|exact F].
  unfold doResponse.
  destruct (doResponse_body W st) as [[[]|b|] st']; exact E.
Qed.

End InvariantProofs.

(* ------------------------------------------------------------------ *)
(** ** How many responses a connection gets *)

Section OneShot.

Context {guard : Type} {G : Guard guard}.

Local Abbreviation M := (M (guard := guard)).

Lemma one_shot_ret A (a : A) : one_shot (ret a : M A).
Proof. intros st. reflexivity. Qed.

Lemma one_shot_bind A B (m : M A) (k : A -> M B) :
  one_shot m -> (forall a, one_shot (k a)) -> one_shot (bind m k).
Proof.
  intros Hm Hk st. unfold bind.
  specialize (Hm st). destruct (m st) as [[a|b|] st1]; auto.
  specialize (Hk a st1). rewrite <- Hm. exact Hk.
Qed.

(** Send one response and return. *)
Lemma one_shot_reply A (r : Response) (b : bool) :
  one_shot (bind (sendResponse r) (fun _ => return_ b) : M A).
Proof. intros st. simpl. now exists r. Qed.

Lemma one_shot_refuse A err status detail (b : bool) :
  one_shot (bind (doError err status detail) (fun _ => return_ b) : M A).
Proof. apply one_shot_reply. Qed.

Lemma one_shot_when (b : bool) (m : M unit) : one_shot m -> one_shot (when b m).
Proof. destruct b; simpl; [auto|]. intros _. apply one_shot_ret. Qed.

Lemma one_shot_learn prin : one_shot (learn prin : M unit).
Proof.
  intros st. unfold learn.
  destruct (rev (Ext prin)); [reflexivity|].
  cbv [bind getKnown when setKnown getPolicy setPolicy ret].
  destruct (negb _); reflexivity.
Qed.

Lemma one_shot_approve W name : one_shot (approve W name : M string).
Proof.
  unfold approve. destruct (manualMode W).
  - apply one_shot_bind.
    + intros st. unfold prompt. now destruct (confirmLoop _).
    + intros ok. apply one_shot_bind; [|intros; apply one_shot_ret].
      destruct (negb _); [apply one_shot_refuse|apply one_shot_ret].
  - destruct (Peer W) as [prin|]; [|apply one_shot_refuse].
    apply one_shot_bind; [apply one_shot_when, one_shot_learn|]. intros _.
    apply one_shot_bind; [intros st; reflexivity|]. intros g.
    apply one_shot_bind; [|intros; apply one_shot_ret].
    destruct (_ && _); [apply one_shot_refuse|apply one_shot_ret].
Qed.

Lemma one_shot_issue W req subjectKey serial cps :
  one_shot (issue W req subjectKey serial cps : M Empty_set).
Proof.
  unfold issue.
  destruct (publish W _) as [cpsUrl e1].
  destruct (publish W _) as [unoticeUrl e2].
  destruct (X509.NewCertficationPolicy cpsUrl unoticeUrl);
    [|apply one_shot_refuse].
  destruct (CreateSignedX509 W subjectKey _); [|apply one_shot_refuse].
  apply one_shot_reply.
Qed.

(** Approval and issuance together answer once. *)
Lemma one_shot_decide W req subjectKey serial :
  one_shot (bind (approve W (Name (CSR_ req)))
              (fun cps => issue W req subjectKey serial cps) : M Empty_set).
Proof.
  apply one_shot_bind; [apply one_shot_approve|].
  intros cps. apply one_shot_issue.
Qed.

Lemma one_shot_makeSerial W b :
  RandRead W = Ok b -> one_shot (makeSerial W : M Z).
Proof.
  intros H st. unfold makeSerial. rewrite H. reflexivity.
Qed.

(** When the random source works, the body answers exactly once. *)
Lemma one_shot_doResponse_body W b :
  RandRead W = Ok b -> one_shot (doResponse_body W : M Empty_set).
Proof.
  intros Hrand. unfold doResponse_body.
  destruct (ReadMessage W) as [req|]; [|apply one_shot_refuse].
  repeat match goal with
         | |- context [sanitize ?s ?f ?e] => destruct (sanitize s f e)
         end.
  destruct (negb _); [apply one_shot_refuse|].
  destruct (UnmarshalCryptoKey W _); [|apply one_shot_refuse].
  destruct (UnmarshalVerifierProto W _); [|apply one_shot_refuse].
  apply one_shot_bind; [now apply (one_shot_makeSerial W (b := b))|].
  intros serial. apply one_shot_decide.
Qed.

(** Except after a failed read of the random source, a connection that
    [doResponse] returns from has received exactly one response and is
    closed; while the handler waits for the operator nothing has been
    sent. *)
Lemma doResponse_one_response W b (st : St (guard := guard)) :
  RandRead W = Ok b ->
  match doResponse W st with
  | (Some _, st') =>
      (exists resp, sent st' = (sent st ++ [resp])%list) /\ closed st' = true
  | (None, st') => sent st' = sent st
  end.
Proof.
  intros Hrand. pose proof (one_shot_doResponse_body W Hrand st) as H.
  unfold doResponse.
  destruct (doResponse_body W st) as [[[]|r|] st']; simpl; auto.
Qed.

(** C1 (where the code departs from the claim).  When the request is valid
    and its key parses but the read of the random source fails, the handler
    sends the ERROR response and goes on: a connection it returns from has
    received that ERROR response and then a second response. *)
Theorem C1_rng_failure_two_responses W (st : St (guard := guard)) req ck subjectKey e :
  ReadMessage W = Ok req ->
  errmsg_after_checks req = "" ->
  UnmarshalCryptoKey W (PublicKey (CSR_ req)) = Ok ck ->
  UnmarshalVerifierProto W ck = Ok subjectKey ->
  RandRead W = Err e ->
  let error1 :=
    errorResponse TAOCA_ERROR "could not generate random serial number" in
  match doResponse W st with
  | (Some _, st') =>
      (exists resp, sent st' = (sent st ++ [error1; resp])%list) /\ closed st' = true
  | (None, st') => sent st' = (sent st ++ [error1])%list
  end.
Proof.
  intros Hread Hmsg Hck Hkey Hrand error1.
  unfold doResponse, doResponse_body. rewrite Hread.
  unfold errmsg_after_checks, errmsg_after_sanitize in Hmsg.
  repeat match goal with
         | |- context [sanitize ?s ?f ?e] => destruct (sanitize s f e)
         end.
  rewrite Hmsg, Hck, Hkey. simpl.
  unfold bind at 1. unfold makeSerial. rewrite Hrand. simpl.
  match goal with
  | |- context [bind _ _ ?s] =>
      pose proof (one_shot_decide W req subjectKey (fold_serial 0) s) as H;
      set (st1 := s) in *
  end.
  destruct (bind _ _ st1) as [[[]|r|] st'].
  - destruct H as [resp H]. simpl. split; [|reflexivity].
    exists resp. rewrite H. subst st1. simpl.
    now rewrite <- app_assoc.
  - simpl. rewrite H. reflexivity.
Qed.

End OneShot.

Lemma C1_rng_failure_witness :
  let W := Examples.world (Ok (Examples.request Examples.details 1))
             (Err (ExternalError "rand")) None in
  let error1 :=
    errorResponse TAOCA_ERROR "could not generate random serial number" in
  match doResponse W Examples.st0 with
  | (Some _, st') =>
      (exists resp, sent st' = (sent Examples.st0 ++ [error1; resp])%list)
      /\ closed st' = true
  | (None, st') => sent st' = (sent Examples.st0 ++ [error1])%list
  end.
Proof.
  intros W error1.
  apply (@C1_rng_failure_two_responses _ _ W Examples.st0
           (Examples.request Examples.details 1) [x01] [x01]
           (ExternalError "rand")); reflexivity.
Defined.

(** The outcome at the failing input of C1: an ERROR response, then the
    certificate. *)
Example rng_failure_then_certificate :
  doResponse
    (Examples.world (Ok (Examples.request Examples.details 1))
       (Err (ExternalError "rand")) None)
    Examples.st0
  = (Some true,
     after Examples.st0
       [errorResponse TAOCA_ERROR "could not generate random serial number";
        mkResponse TAOCA_OK None [[x30]; [x31]]]).
Proof. vm_compute. reflexivity. Qed.

(* ------------------------------------------------------------------ *)
(** ** Publication failures *)

Lemma NewCertficationPolicy_empty :
  is_ok (X509.NewCertficationPolicy "" "") = true.
Proof. vm_compute. reflexivity. Qed.

Section PublishFailure.

Context {guard : Type} {G : Guard guard}.

(** C4 (where the code departs from the claim).  When every write of a policy
    document fails, [publish] reports the error and an empty URL, the handler
    drops the error, builds the extension from the empty URLs and, the signer
    willing, answers OK with the certificate. *)
Theorem C4_publish_failure_answered_OK W (st st1 : St (guard := guard))
    req ck subjectKey b cps e cert :
  ReadMessage W = Ok req ->
  errmsg_after_checks req = "" ->
  UnmarshalCryptoKey W (PublicKey (CSR_ req)) = Ok ck ->
  UnmarshalVerifierProto W ck = Ok subjectKey ->
  RandRead W = Ok b ->
  approve W (Name (CSR_ req)) st = (Next cps, st1) ->
  (forall p doc, WritePath W p doc = Some e) ->
  (forall template, CreateSignedX509 W subjectKey template = Ok cert) ->
  (forall doc, publish W doc = ("", Some e)) /\
  doResponse W st =
    (Some true, after st1 [mkResponse TAOCA_OK None (cert :: CertChain W)]).
Proof.
  intros Hread Hmsg Hck Hkey Hrand Happrove Hwrite Hsign.
  assert (Hpub : forall doc, publish W doc = ("", Some e)).
  { intros doc. unfold publish. now rewrite Hwrite. }
  split; [exact Hpub|].
  unfold doResponse, doResponse_body. rewrite Hread.
  unfold errmsg_after_checks, errmsg_after_sanitize in Hmsg.
  repeat match goal with
         | |- context [sanitize ?s ?f ?e] => destruct (sanitize s f e)
         end.
  rewrite Hmsg, Hck, Hkey. simpl.
  unfold bind at 1. unfold makeSerial. rewrite Hrand. simpl.
  unfold bind at 1. rewrite Happrove.
  unfold issue. rewrite !Hpub.
  pose proof NewCertficationPolicy_empty as Hext.
  destruct (X509.NewCertficationPolicy "" "") as [ext|]; [|discriminate].
  rewrite Hsign. reflexivity.
Qed.

End PublishFailure.

Lemma C4_publish_failure_witness :
  let W := Examples.world (Ok (Examples.request Examples.details 1))
             (Ok Examples.random8) (Some (ExternalError "disk full")) in
  (forall doc, publish W doc = ("", Some (ExternalError "disk full"))) /\
  doResponse W Examples.st0 =
    (Some true, after Examples.st0 [mkResponse TAOCA_OK None ([x30] :: CertChain W)]).
Proof.
  intros W.
  apply (@C4_publish_failure_answered_OK _ _ W Examples.st0 Examples.st0
           (Examples.request Examples.details 1) [x01] [x01] Examples.random8
           (cpsTemplate ++ cpsManual) (ExternalError "disk full") [x30]);
    reflexivity.
Defined.

(* ------------------------------------------------------------------ *)
(** ** Validation: the claims at concrete requests *)

Lemma C5_bad_request_detail_witness :
  let req := Examples.request
               (mkX509Details (Some "svc.example") (Some "U$") (Some "MA")
                  (Some "Oakham") None (Some "Eng")) 1 in
  let W := Examples.world (Ok req) (Ok Examples.random8) None in
  (forall s fieldName errmsg,
      errmsg <> "" -> sanitize s fieldName errmsg = ("", errmsg)) /\
  errmsg_after_sanitize (Name (CSR_ req)) = "invalid characters in name.Country" /\
  doResponse W Examples.st0 =
    (Some false,
     after Examples.st0
       [errorResponse TAOCA_BAD_REQUEST "invalid characters in name.Country"]).
Proof.
  intros req W.
  apply (@C5_bad_request_detail _ _ W Examples.st0 req);
    [reflexivity | left; vm_compute; discriminate].
Defined.

(** C5, as stated, fails: a request whose Country is absent and whose
    validity period is zero is answered with "invalid validity period", which
    is not the message of the first sanitization failure. *)
Lemma C5_counterexample :
  let req := Examples.request
               (mkX509Details (Some "svc.example") None (Some "MA")
                  (Some "Oakham") (Some "Google") (Some "Eng")) 0 in
  let W := Examples.world (Ok req) (Ok Examples.random8) None in
  first_failure (fields (Name (CSR_ req))) = Some ("Country", Missing) /\
  errmsg_after_sanitize (Name (CSR_ req)) = "missing name.Country" /\
  sent (snd (doResponse W Examples.st0)) =
    [errorResponse TAOCA_BAD_REQUEST "invalid validity period"].
Proof. vm_compute. repeat split. Qed.

Lemma C10_absent_field_witness :
  let req := Examples.request
               (mkX509Details (Some "svc.example") (Some "US") None
                  (Some "Oakham") (Some "Google") None) 1 in
  let W := Examples.world (Ok req) (Ok Examples.random8) None in
  exists detail,
    doResponse W Examples.st0 =
      (Some false, after Examples.st0 [errorResponse TAOCA_BAD_REQUEST detail]) /\
    (forall pre fieldName post,
        fields (Name (CSR_ req)) = (pre ++ (fieldName, None) :: post)%list ->
        Forall (fun x => check (snd x) = None) pre ->
        (0 < Years (CSR_ req))%Z ->
        detail = "missing name." ++ fieldName).
Proof.
  intros req W.
  apply (@C10_absent_field_rejected _ _ W Examples.st0 req);
    [reflexivity | simpl; tauto].
Defined.

(** C10, as stated, fails: with an empty Country and an absent State the
    detail names Country, the first failing field, and not State, the first
    absent one. *)
Lemma C10_counterexample :
  let req := Examples.request
               (mkX509Details (Some "svc.example") (Some "") None
                  (Some "Oakham") (Some "Google") (Some "Eng")) 1 in
  let W := Examples.world (Ok req) (Ok Examples.random8) None in
  State (Name (CSR_ req)) = None /\
  Country (Name (CSR_ req)) <> None /\
  sent (snd (doResponse W Examples.st0)) =
    [errorResponse TAOCA_BAD_REQUEST "empty name.Country"].
Proof. vm_compute. repeat split. discriminate. Qed.

(* ------------------------------------------------------------------ *)
(** ** The serial number *)

Lemma int64_wrap_range z : (- 2 ^ 63 <= int64_wrap z < 2 ^ 63)%Z.
Proof.
  unfold int64_wrap.
  pose proof (Z.mod_pos_bound (z + 2 ^ 63) (2 ^ 64) ltac:(lia)). lia.
Qed.

Lemma int64_wrap_id z : (- 2 ^ 63 <= z < 2 ^ 63)%Z -> int64_wrap z = z.
Proof.
  intros H. unfold int64_wrap. rewrite Z.mod_small; lia.
Qed.

Lemma fold_serial_spec s :
  (- 2 ^ 63 <= s < 2 ^ 63)%Z ->
  fold_serial s = (if (s <? 0)%Z then - s - 1 else s)%Z.
Proof.
  intros H. unfold fold_serial.
  destruct (s <? 0)%Z eqn:E; [|reflexivity].
  apply Z.ltb_lt in E. unfold Z.lnot. rewrite int64_wrap_id; lia.
Qed.

Lemma fold_serial_range s :
  (- 2 ^ 63 <= s < 2 ^ 63)%Z -> (0 <= fold_serial s < 2 ^ 63)%Z.
Proof.
  intros H. rewrite fold_serial_spec by exact H.
  destruct (s <? 0)%Z eqn:E; [apply Z.ltb_lt in E|apply Z.ltb_ge in E]; lia.
Qed.

(** C9 (amended).  A negative serial number is replaced by its bitwise
    complement, which is one less than its absolute value; for every eight
    bytes read the folded serial number lies between 0 and 2^63 - 1, and so
    does every serial number [makeSerial] hands on. *)
Theorem C9_fold_serial_nonnegative (b : list byte) :
  let serial := int64_le b in
  fold_serial serial = (if (serial <? 0)%Z then Z.lnot serial else serial) /\
  fold_serial serial = (if (serial <? 0)%Z then Z.abs serial - 1 else serial)%Z /\
  (0 <= fold_serial serial < 2 ^ 63)%Z /\
  (forall (guard : Type) (G : Guard guard) W (st : St (guard := guard)),
      match makeSerial W st with
      | (Next n, _) => (0 <= n < 2 ^ 63)%Z
      | _ => False
      end).
Proof.
  intros serial.
  pose proof (int64_wrap_range (le_uint (firstn 8 b))) as Hr.
  fold (int64_le b) in Hr. fold serial in Hr.
  pose proof (fold_serial_spec Hr) as Hs.
  repeat split.
  - rewrite Hs. unfold Z.lnot. destruct (serial <? 0)%Z; lia.
  - rewrite Hs. destruct (serial <? 0)%Z eqn:E; [apply Z.ltb_lt in E; lia|reflexivity].
  - apply (fold_serial_range Hr).
  - apply (fold_serial_range Hr).
  - intros guard G W st. unfold makeSerial.
    destruct (RandRead W) as [b'|e]; simpl.
    + apply fold_serial_range, int64_wrap_range.
    + vm_compute. split; [discriminate|reflexivity].
Qed.

(** C9, as stated, fails: no 64-bit serial number is folded to a negative
    one. *)
Lemma C9_counterexample :
  ~ (exists s, (- 2 ^ 63 <= s < 2 ^ 63)%Z /\ (fold_serial s < 0)%Z).
Proof.
  intros (s & Hr & Hneg).
  pose proof (fold_serial_range Hr). lia.
Qed.

(* ------------------------------------------------------------------ *)
(** ** The scanner makes progress *)

Import RuleFile.

Lemma find_newline_spec suffix i j :
  Policy.find_newline suffix i = Some j ->
  (i <= j)%nat /\ nth_error suffix (j - i) = Some x0a.
Proof.
  revert i. induction suffix as [|b rest IH]; intros i; simpl; [discriminate|].
  destruct (byte_eqb b x0a) eqn:E.
  - intros [= <-]. rewrite Nat.sub_diag. simpl.
    apply Byte.byte_dec_bl in E. now subst.
  - intros H. apply IH in H as [Hle Hnth]. split; [lia|].
    replace (j - i)%nat with (S (j - S i)) by lia. exact Hnth.
Qed.

(** A token [split] returns takes at least one byte of input. *)
Lemma split_progress data atEOF advance tok e :
  Policy.split data atEOF = (advance, Some tok, e) -> (0 < advance)%Z.
Proof.
  unfold Policy.split.
  destruct (atEOF && (length data =? 0)%nat) eqn:Hempty; [discriminate|].
  set (i := Policy.skip_spaces data 0).
  destruct (nth_error data i) as [b|] eqn:Hb.
  - assert (Hlen : (0 < length data)%nat).
    { destruct data; [now destruct i|simpl; lia]. }
    destruct (byte_eqb b x23) eqn:Hhash.
    + destruct (Policy.find_newline (skipn i data) i) as [j|] eqn:Hj.
      * intros [= <- _ _]. apply find_newline_spec in Hj as [Hle Hnth].
        assert (j <> i).
        { intros ->. rewrite Nat.sub_diag in Hnth.
          rewrite nth_error_skipn, Nat.add_0_r, Hb in Hnth.
          apply Byte.byte_dec_bl in Hhash. congruence. }
        lia.
      * destruct atEOF; [|discriminate]. intros [= <- _ _]. lia.
    + destruct (Policy.find_line_end _ _ i) as [j|].
      * intros [= <- _ _]. lia.
      * destruct atEOF; [|discriminate]. intros [= <- _ _]. lia.
  - destruct (Policy.find_line_end _ _ i) as [j|].
    + intros [= <- _ _]. lia.
    + destruct atEOF; [|discriminate].
      simpl in Hempty. apply Nat.eqb_neq in Hempty.
      intros [= <- _ _]. lia.
Qed.

Lemma setErr_fields s e :
  Bufio.rd (Bufio.setErr s e) = Bufio.rd s /\
  Bufio.buf (Bufio.setErr s e) = Bufio.buf s /\
  Bufio.splitFn (Bufio.setErr s e) = Bufio.splitFn s.
Proof.
  unfold Bufio.setErr. destruct (Bufio.err s) as [[]|]; simpl; auto.
Qed.

(** One attempt to cut a token keeps the reader, never grows the buffer and,
    when it yields a token, shrinks the buffer. *)
Lemma Scan_try_spec s :
  Bufio.splitFn s = Policy.split ->
  match Bufio.Scan_try s with
  | Bufio.Done ok s' =>
      Bufio.splitFn s' = Policy.split /\ Bufio.rd s' = Bufio.rd s /\
      (length (Bufio.buf s') <= length (Bufio.buf s))%nat /\
      (ok = true -> (length (Bufio.buf s') < length (Bufio.buf s))%nat)
  | Bufio.More s' =>
      Bufio.splitFn s' = Policy.split /\ Bufio.rd s' = Bufio.rd s /\
      Bufio.err s' = Bufio.err s /\
      (length (Bufio.buf s') <= length (Bufio.buf s))%nat
  end.
Proof.
  intros Hsplit. unfold Bufio.Scan_try.
  destruct (_ || _); [|auto].
  rewrite Hsplit.
  destruct (Policy.split _ _) as [[advance tok] e] eqn:Hs.
  destruct e as [e|].
  { destruct (setErr_fields s e) as (-> & -> & ->). repeat split; auto; discriminate. }
  destruct (advance <? 0)%Z eqn:Hneg.
  { destruct (setErr_fields s ErrNegativeAdvance) as (-> & -> & ->).
    repeat split; auto; discriminate. }
  destruct (_ <? advance)%Z eqn:Hfar.
  { destruct (setErr_fields s ErrAdvanceTooFar) as (-> & -> & ->).
    repeat split; auto; discriminate. }
  apply Z.ltb_ge in Hneg, Hfar.
  destruct tok as [t|]; simpl; rewrite length_skipn; repeat split; auto; try lia.
  intros _. apply split_progress in Hs. lia.
Qed.

Lemma Scan_loop_progress pending s ok s' :
  Bufio.rd s = pending ->
  Bufio.splitFn s = Policy.split ->
  Bufio.Scan_loop pending s = (ok, s') ->
  Bufio.splitFn s' = Policy.split /\
  (Bufio.remaining s' <= Bufio.remaining s)%nat /\
  (ok = true -> (Bufio.remaining s' < Bufio.remaining s)%nat).
Proof.
  assert (Hdone : forall (s s1 : Bufio.Scanner) ok1,
             Bufio.splitFn s1 = Policy.split /\ Bufio.rd s1 = Bufio.rd s /\
             (length (Bufio.buf s1) <= length (Bufio.buf s))%nat /\
             (ok1 = true -> (length (Bufio.buf s1) < length (Bufio.buf s))%nat) ->
             Bufio.splitFn s1 = Policy.split /\
             (Bufio.remaining s1 <= Bufio.remaining s)%nat /\
             (ok1 = true -> (Bufio.remaining s1 < Bufio.remaining s)%nat)).
  { intros s0 s1 ok1 (? & E & ? & Hlt). unfold Bufio.remaining. rewrite E.
    split; [assumption|]. split; [lia|]. intros Hok. specialize (Hlt Hok). lia. }
  assert (Hstop : forall (s s1 : Bufio.Scanner),
             Bufio.splitFn s1 = Policy.split -> Bufio.rd s1 = Bufio.rd s ->
             Bufio.splitFn (Bufio.shutdown s1) = Policy.split /\
             (Bufio.remaining (Bufio.shutdown s1) <= Bufio.remaining s)%nat /\
             (false = true ->
              (Bufio.remaining (Bufio.shutdown s1) < Bufio.remaining s)%nat)).
  { intros s0 s1 ? E. unfold Bufio.remaining; simpl. rewrite E.
    split; [assumption|]. split; [lia|discriminate]. }
  revert s. induction pending as [|c pending IH]; intros s Hrd Hsplit; simpl;
    pose proof (Scan_try_spec s Hsplit) as H1;
    destruct (Bufio.Scan_try s) as [ok1 s1|s1];
    try (intros [= <- <-]; now apply Hdone);
    destruct H1 as (Hs1 & Erd & Eerr & Hle);
    destruct (Bufio.err s1);
    try (intros [= <- <-]; now apply Hstop).
  - assert (Hs2 : Bufio.splitFn (Bufio.setErr s1 EOF) = Policy.split).
    { destruct (setErr_fields s1 EOF) as (_ & _ & ->). exact Hs1. }
    pose proof (Scan_try_spec _ Hs2) as H2.
    destruct (setErr_fields s1 EOF) as (Erd2 & Ebuf2 & _).
    rewrite Erd2, Ebuf2 in H2.
    destruct (Bufio.Scan_try (Bufio.setErr s1 EOF)) as [ok2 s2|s2];
      intros [= <- <-].
    + apply Hdone. destruct H2 as (? & -> & ? & ?). rewrite Erd.
      repeat split; auto; try lia. intros Hok. intuition lia.
    + destruct H2 as (? & E2 & ? & ?). apply Hstop; [assumption|congruence].
  - intros H. apply IH in H; [|reflexivity|exact Hs1].
    destruct H as (Hs' & Hle' & Hlt').
    unfold Bufio.remaining in *. simpl in *.
    rewrite Hrd. simpl. rewrite !length_app in *.
    split; [assumption|]. split; [lia|]. intros Hok. specialize (Hlt' Hok). lia.
Qed.

Lemma Scan_progress s ok s' :
  Bufio.splitFn s = Policy.split ->
  Bufio.Scan s = (ok, s') ->
  Bufio.splitFn s' = Policy.split /\
  (Bufio.remaining s' <= Bufio.remaining s)%nat /\
  (ok = true -> (Bufio.remaining s' < Bufio.remaining s)%nat).
Proof. intros Hs. now apply Scan_loop_progress. Qed.

(** [NextLine] ends within its fuel; a line it returns has consumed input. *)
Lemma NextLine_loop_total fuel s :
  Bufio.splitFn s = Policy.split ->
  (Bufio.remaining s < fuel)%nat ->
  exists t s',
    Policy.NextLine_loop fuel s = Some (t, s') /\
    Bufio.splitFn s' = Policy.split /\
    (Bufio.remaining s' <= Bufio.remaining s)%nat /\
    (t <> "" -> (Bufio.remaining s' < Bufio.remaining s)%nat).
Proof.
  revert s. induction fuel as [|fuel IH]; intros s Hs Hfuel; [lia|].
  simpl. destruct (Bufio.Scan s) as [ok s1] eqn:Hscan.
  apply Scan_progress in Hscan as (Hs1 & Hle & Hlt); [|exact Hs].
  destruct ok.
  - specialize (Hlt eq_refl).
    destruct (negb _) eqn:Hnonempty.
    + eexists _, _. repeat split; eauto; lia.
    + destruct (IH s1 Hs1 ltac:(lia)) as (t & s' & E & ? & ? & Hlt').
      exists t, s'. repeat split; auto; try lia;
        intros Ht; specialize (Hlt' Ht); lia.
  - eexists _, _. repeat split; eauto; congruence.
Qed.

Lemma NextLine_total s :
  Bufio.splitFn s = Policy.split ->
  exists t s',
    Policy.NextLine s = Some (t, s') /\
    Bufio.splitFn s' = Policy.split /\
    (Bufio.remaining s' <= Bufio.remaining s)%nat /\
    (t <> "" -> (Bufio.remaining s' < Bufio.remaining s)%nat).
Proof. intros Hs. apply NextLine_loop_total; [exact Hs|lia]. Qed.

(* ------------------------------------------------------------------ *)
(** ** The scanner does not depend on how the reader delivers the input *)

Local Open Scope list_scope.

Lemma skip_spaces_bounds d k :
  (k <= Policy.skip_spaces d k <= k + length d)%nat.
Proof.
  revert k. induction d as [|b d IH]; intros k; simpl; [lia|].
  destruct (_ && _); [|lia]. specialize (IH (S k)). lia.
Qed.

Lemma skip_spaces_app d x k :
  (Policy.skip_spaces d k < k + length d)%nat ->
  Policy.skip_spaces (d ++ x) k = Policy.skip_spaces d k.
Proof.
  revert k. induction d as [|b d IH]; intros k; simpl; [lia|].
  destruct (_ && _); [|reflexivity]. intros H. apply IH. lia.
Qed.

Lemma find_newline_bounds l i j :
  Policy.find_newline l i = Some j -> (i <= j < i + length l)%nat.
Proof.
  revert i. induction l as [|b l IH]; intros i; simpl; [discriminate|].
  destruct (byte_eqb b x0a); [intros [= <-]; lia|].
  intros H. apply IH in H. lia.
Qed.

Lemma find_newline_app l x i j :
  Policy.find_newline l i = Some j -> Policy.find_newline (l ++ x) i = Some j.
Proof.
  revert i. induction l as [|b l IH]; intros i; simpl; [discriminate|].
  destruct (byte_eqb b x0a); [auto|]. apply IH.
Qed.

Lemma find_line_end_bounds p l i j :
  Policy.find_line_end p l i = Some j -> (i <= j < i + length l)%nat.
Proof.
  revert p i. induction l as [|b l IH]; intros p i; simpl; [discriminate|].
  destruct (_ && _); [intros [= <-]; lia|].
  intros H. apply IH in H. lia.
Qed.

Lemma find_line_end_app p l x i j :
  Policy.find_line_end p l i = Some j ->
  Policy.find_line_end p (l ++ x) i = Some j.
Proof.
  revert p i. induction l as [|b l IH]; intros p i; simpl; [discriminate|].
  destruct (_ && _); [auto|]. apply IH.
Qed.

Lemma byte_before_app d x i :
  (i <= length d)%nat -> Policy.byte_before (d ++ x) i = Policy.byte_before d i.
Proof.
  destruct i as [|i]; [reflexivity|]. simpl. intros H.
  apply nth_error_app1. lia.
Qed.

(** [split] reports no error and never advances past its input. *)
Lemma split_bounds d eof advance tok e :
  Policy.split d eof = (advance, tok, e) ->
  e = None /\ (0 <= advance <= Z.of_nat (length d))%Z.
Proof.
  unfold Policy.split.
  destruct (eof && _); [intros [= <- _ <-]; split; [reflexivity|lia]|].
  pose proof (skip_spaces_bounds d 0) as Hi.
  set (i := Policy.skip_spaces d 0) in *.
  assert (Hskip : length (skipn i d) = (length d - i)%nat) by apply length_skipn.
  destruct (match nth_error d i with Some b => byte_eqb b x23 | None => false end).
  - destruct (Policy.find_newline (skipn i d) i) as [j|] eqn:Hj.
    + apply find_newline_bounds in Hj. intros [= <- _ <-]. split; [reflexivity|lia].
    + destruct eof; intros [= <- _ <-]; split; try reflexivity; lia.
  - destruct (Policy.find_line_end _ (skipn i d) i) as [j|] eqn:Hj.
    + apply find_line_end_bounds in Hj. intros [= <- _ <-]. split; [reflexivity|lia].
    + destruct eof; intros [= <- _ <-]; split; try reflexivity; lia.
Qed.

(** Without a token and before the end of input, [split] asks for more. *)
Lemma split_need_more d advance e :
  Policy.split d false = (advance, None, e) -> advance = 0%Z.
Proof.
  unfold Policy.split. cbn [andb].
  destruct (match nth_error d _ with Some b => byte_eqb b x23 | None => false end).
  - destruct (Policy.find_newline _ _); [discriminate|]. now intros [= <- _].
  - destruct (Policy.find_line_end _ _ _); [discriminate|]. now intros [= <- _].
Qed.

(** A token found before the end of input is found again whatever input
    follows. *)
Lemma split_stable d x eof advance tok e :
  Policy.split d false = (advance, Some tok, e) ->
  Policy.split (d ++ x) eof = (advance, Some tok, e).
Proof.
  unfold Policy.split. cbn [andb].
  pose proof (skip_spaces_bounds d 0) as Hi.
  set (i := Policy.skip_spaces d 0) in *.
  destruct (nth_error d i) as [b|] eqn:Hb.
  2:{ destruct (Policy.find_line_end _ _ _) eqn:Hj; [|discriminate].
      apply find_line_end_bounds in Hj. rewrite length_skipn in Hj.
      apply nth_error_None in Hb. lia. }
  assert (Hlt : (i < length d)%nat) by (apply nth_error_Some; congruence).
  assert (Hne : (length (d ++ x) =? 0)%nat = false).
  { apply Nat.eqb_neq. rewrite length_app. lia. }
  rewrite Hne, andb_false_r.
  rewrite skip_spaces_app by (fold i; lia). fold i.
  rewrite nth_error_app1, Hb by exact Hlt.
  rewrite skipn_app. replace (i - length d)%nat with 0%nat by lia.
  rewrite skipn_O.
  destruct (byte_eqb b x23).
  - destruct (Policy.find_newline (skipn i d) i) as [j|] eqn:Hj; [|discriminate].
    rewrite (find_newline_app _ x _ Hj). auto.
  - rewrite byte_before_app by lia.
    destruct (Policy.find_line_end _ (skipn i d) i) as [j|] eqn:Hj; [|discriminate].
    rewrite (find_line_end_app _ _ x _ Hj).
    apply find_line_end_bounds in Hj. rewrite length_skipn in Hj.
    rewrite firstn_app. replace (j + 1 - length d)%nat with 0%nat by lia.
    rewrite firstn_O, app_nil_r. auto.
Qed.

Lemma Scan_try_split s :
  Bufio.splitFn s = Policy.split ->
  Bufio.Scan_try s =
  if (0 <? length (Bufio.buf s))%nat || Bufio.isSome (Bufio.err s) then
    let '(advance, tok, _) := Policy.split (Bufio.buf s) (Bufio.isSome (Bufio.err s)) in
    let s' := Bufio.mkScanner (Bufio.rd s)
                (skipn (Z.to_nat advance) (Bufio.buf s)) (Bufio.err s)
                (match tok with Some t => t | None => [] end) Policy.split in
    match tok with
    | Some _ => Bufio.Done true s'
    | None => Bufio.More s'
    end
  else Bufio.More s.
Proof.
  intros Hsplit. unfold Bufio.Scan_try. rewrite Hsplit.
  destruct (_ || _); [|reflexivity].
  destruct (Policy.split _ _) as [[advance tok] e] eqn:Hs.
  apply split_bounds in Hs as [-> Hb].
  destruct (Z.ltb_spec advance 0); [lia|].
  destruct (Z.ltb_spec (Z.of_nat (length (Bufio.buf s))) advance); [lia|].
  reflexivity.
Qed.

(** The last attempt, once the reader has reported [io.EOF]. *)
Lemma Scan_try_EOF s :
  Bufio.splitFn s = Policy.split ->
  Bufio.err s = Some EOF -> Bufio.rd s = [] ->
  scanned s
    match Bufio.Scan_try s with
    | Bufio.Done ok s' => (ok, s')
    | Bufio.More s' => (false, Bufio.shutdown s')
    end.
Proof.
  intros Hsplit Herr Hrd. rewrite Scan_try_split by exact Hsplit.
  rewrite Herr. cbn [Bufio.isSome]. rewrite orb_true_r.
  unfold scanned, next_token, stream. rewrite Hrd. cbn [concat].
  rewrite app_nil_r.
  destruct (Policy.split (Bufio.buf s) true) as [[advance [tok|]] e];
    unfold reading; cbn; rewrite ?app_nil_r; auto 10.
Qed.

Ltac more H :=
  match goal with
  | |- context [Bufio.shutdown ?r] =>
      apply (H r); solve [reflexivity | assumption]
  end.

Lemma Scan_loop_stream pending s :
  Bufio.rd s = pending -> reading s ->
  scanned s (Bufio.Scan_loop pending s).
Proof.
  revert s. induction pending as [|c pending IH]; intros s Hrd [Hsplit Hst].
  - (* the reader is exhausted *)
    destruct Hst as [Herr|[Herr _]].
    2:{ cbn [Bufio.Scan_loop].
        pose proof (Scan_try_EOF s Hsplit Herr Hrd) as H.
        rewrite Scan_try_split in * by exact Hsplit.
        rewrite Herr in *. cbn [Bufio.isSome] in *. rewrite orb_true_r in *.
        destruct (Policy.split (Bufio.buf s) true) as [[advance [tok|]] e];
          cbn in *; exact H. }
    assert (Hlast : forall s1,
               Bufio.buf s1 = Bufio.buf s -> Bufio.rd s1 = [] ->
               Bufio.err s1 = None -> Bufio.splitFn s1 = Policy.split ->
               scanned s
                 match Bufio.Scan_try (Bufio.setErr s1 EOF) with
                 | Bufio.Done ok s'' => (ok, s'')
                 | Bufio.More s'' => (false, Bufio.shutdown s'')
                 end).
    { intros s1 Hbuf Hrd1 Herr1 Hsplit1.
      assert (Hs : stream (Bufio.setErr s1 EOF) = stream s).
      { unfold stream, Bufio.setErr. rewrite Herr1. cbn. now rewrite Hbuf, Hrd1, Hrd. }
      pose proof (@Scan_try_EOF (Bufio.setErr s1 EOF)) as H.
      unfold scanned in *. rewrite Hs in H. apply H;
        unfold Bufio.setErr; rewrite Herr1; cbn; auto. }
    cbn [Bufio.Scan_loop]. rewrite Scan_try_split by exact Hsplit.
    rewrite Herr. cbn [Bufio.isSome]. rewrite orb_false_r.
    destruct (0 <? length (Bufio.buf s))%nat.
    + destruct (Policy.split (Bufio.buf s) false) as [[advance [tok|]] e] eqn:Hs.
      * pose proof (split_bounds _ _ Hs) as [_ Hb].
        unfold scanned, next_token, stream. rewrite Hrd. cbn [concat].
        rewrite (split_stable _ [] true Hs). unfold reading. cbn.
        rewrite !app_nil_r. auto 10.
      * apply split_need_more in Hs as ->. more Hlast.
    + rewrite Herr. apply (Hlast s); auto.
  - (* the reader has more to deliver *)
    destruct Hst as [Herr|[_ Hnil]]; [|congruence].
    assert (Hnext : forall s1 e1,
               Bufio.buf s1 = Bufio.buf s ->
               e1 = None -> Bufio.splitFn s1 = Policy.split ->
               scanned s
                 (Bufio.Scan_loop pending
                    (Bufio.mkScanner pending (Bufio.buf s1 ++ c) e1
                       (Bufio.token s1) (Bufio.splitFn s1)))).
    { intros s1 e1 Hbuf Herr1 Hsplit1.
      set (s2 := Bufio.mkScanner _ _ _ _ _).
      assert (Hs : stream s2 = stream s).
      { unfold stream, s2. cbn. rewrite Hbuf, Hrd. cbn. now rewrite app_assoc. }
      pose proof (IH s2 eq_refl) as H. unfold scanned in *. rewrite Hs in H.
      apply H. split; cbn; auto. }
    cbn [Bufio.Scan_loop]. rewrite Scan_try_split by exact Hsplit.
    rewrite Herr. cbn [Bufio.isSome]. rewrite orb_false_r.
    destruct (0 <? length (Bufio.buf s))%nat.
    + destruct (Policy.split (Bufio.buf s) false) as [[advance [tok|]] e] eqn:Hs.
      * pose proof (split_bounds _ _ Hs) as [_ Hb].
        unfold scanned, next_token, stream.
        rewrite (split_stable _ (concat (Bufio.rd s)) true Hs).
        unfold reading. cbn. rewrite skipn_app.
        replace (Z.to_nat advance - length (Bufio.buf s))%nat with 0%nat by lia.
        auto 10.
      * apply split_need_more in Hs as ->. more Hnext.
    + rewrite Herr. apply (Hnext s); auto.
Qed.

(** [Scan] cuts the token [split] finds in the whole of the remaining input,
    however the reader delivers it. *)
Lemma Scan_stream s : reading s -> scanned s (Bufio.Scan s).
Proof. intros H. now apply Scan_loop_stream. Qed.

Lemma length_stream s : length (stream s) = Bufio.remaining s.
Proof. unfold stream, Bufio.remaining. apply length_app. Qed.

Lemma next_token_shorter data tok rest :
  next_token data = Some (tok, rest) -> (length rest < length data)%nat.
Proof.
  unfold next_token.
  destruct (Policy.split data true) as [[advance [t|]] e] eqn:Hs; [|discriminate].
  intros [= _ <-]. pose proof (split_progress _ _ Hs).
  apply split_bounds in Hs as [_ Hb]. rewrite length_skipn. lia.
Qed.

Lemma NextLine_loop_stream fuel s :
  reading s -> (length (stream s) < fuel)%nat ->
  exists s',
    Policy.NextLine_loop fuel s = Some (fst (next_line_fuel fuel (stream s)), s') /\
    reading s' /\ stream s' = snd (next_line_fuel fuel (stream s)).
Proof.
  revert s. induction fuel as [|fuel IH]; intros s Hs Hfuel; [lia|].
  cbn [Policy.NextLine_loop next_line_fuel].
  destruct (Scan_stream Hs) as [Hs' H].
  destruct (Bufio.Scan s) as [ok s1]. cbn [fst snd] in *.
  destruct (next_token (stream s)) as [[tok rest]|] eqn:Htok.
  - destruct H as (-> & Etok & Erest). unfold Bufio.Text. rewrite Etok.
    destruct (negb _); [eauto|].
    apply next_token_shorter in Htok.
    destruct (IH s1 Hs' ltac:(rewrite Erest; lia)) as (s' & E & ? & ?).
    rewrite Erest in *. eauto.
  - destruct H as (-> & Erest). eauto.
Qed.

Lemma next_line_fuel_enough fuel1 fuel2 data :
  (length data < fuel1)%nat -> (length data < fuel2)%nat ->
  next_line_fuel fuel1 data = next_line_fuel fuel2 data.
Proof.
  revert fuel2 data.
  induction fuel1 as [|fuel1 IH]; intros fuel2 data H1 H2; [lia|].
  destruct fuel2 as [|fuel2]; [lia|]. cbn [next_line_fuel].
  destruct (next_token data) as [[tok rest]|] eqn:Htok; [|reflexivity].
  destruct (negb _); [reflexivity|].
  apply next_token_shorter in Htok. apply IH; lia.
Qed.

(** [NextLine] returns the first logical line of the remaining input and
    leaves the rest of it, however the reader delivers the input. *)
Lemma NextLine_stream s :
  reading s ->
  exists s',
    Policy.NextLine s = Some (fst (next_line (stream s)), s') /\
    reading s' /\ stream s' = snd (next_line (stream s)).
Proof.
  intros Hs. unfold Policy.NextLine, next_line.
  rewrite <- length_stream. apply NextLine_loop_stream; [exact Hs|lia].
Qed.

Lemma reading_NewScanner chunks :
  reading (Bufio.NewScanner chunks Policy.split) /\
  stream (Bufio.NewScanner chunks Policy.split) = concat chunks.
Proof. unfold reading. cbn. auto. Qed.

Local Open Scope string_scope.

(* ------------------------------------------------------------------ *)
(** ** Loading a policy *)

Section LoadPolicyProofs.

Context {guard : Type} {G : Guard guard}.

(** The rule loop is the fold of [AddRule] over the logical lines. *)
Lemma addRules_loaded fuel1 fuel2 path (g : guard) s :
  Bufio.splitFn s = Policy.split ->
  (Bufio.remaining s < fuel1)%nat ->
  (Bufio.remaining s < fuel2)%nat ->
  PolicyFile.addRules fuel1 path g s =
  Some (loaded path g (logical_lines_fuel fuel2 s)).
Proof.
  revert fuel2 g s.
  induction fuel1 as [|fuel1 IH]; intros fuel2 g s Hs H1 H2; [lia|].
  destruct fuel2 as [|fuel2]; [lia|]. simpl.
  destruct (NextLine_total s Hs) as (line & s' & -> & Hs' & Hle & Hlt).
  destruct (line =? "")%string eqn:E; [reflexivity|].
  apply String.eqb_neq in E. specialize (Hlt E).
  unfold loaded. simpl.
  destruct (AddRule g line) as [g' [err|]]; [reflexivity|].
  rewrite (IH fuel2 g' s' Hs'); [reflexivity|lia|lia].
Qed.

(** [LoadPolicy] in terms of the first logical line and the lines after
    it. *)
Lemma LoadPolicy_spec fs path s0 :
  Policy.NewScanner fs path = Ok s0 ->
  exists t s1,
    Policy.NextLine s0 = Some (t, s1) /\
    PolicyFile.LoadPolicy fs path =
    Some (if (t =? "acl")%string then loaded path NewACLGuard (logical_lines s1)
          else if (t =? "datalog")%string
               then loaded path NewTemporaryDatalogGuard (logical_lines s1)
          else if (t =? "")%string
               then Err (Errorf ("%s: first line must specify 'datalog' or 'acl'" ++ LF)
                           [ArgString path])
          else Err (Errorf ("%s: expected 'datalog' or 'acl', found %q" ++ LF)
                      [ArgString path; ArgString t])).
Proof.
  intros Hnew. unfold PolicyFile.LoadPolicy. rewrite Hnew.
  assert (Hs0 : Bufio.splitFn s0 = Policy.split).
  { unfold Policy.NewScanner in Hnew. destruct (fs path); [|discriminate].
    injection Hnew as <-. reflexivity. }
  destruct (NextLine_total s0 Hs0) as (t & s1 & E & Hs1 & _ & _).
  exists t, s1. split; [exact E|]. rewrite E.
  unfold logical_lines.
  destruct (t =? "acl")%string; [apply addRules_loaded; auto|].
  destruct (t =? "datalog")%string; [apply addRules_loaded; auto|].
  destruct (t =? "")%string; reflexivity.
Qed.

Lemma add_rules_failure (g : guard) pre line post g' g'' err :
  add_rules g pre = inl g' ->
  AddRule g' line = (g'', Some err) ->
  add_rules g (pre ++ line :: post) = inr (line, err).
Proof.
  revert g. induction pre as [|l pre IH]; intros g; simpl.
  - intros [= ->] ->. reflexivity.
  - destruct (AddRule g l) as [g1 [e|]]; [discriminate|]. apply IH.
Qed.

(** C7 (amended).  [LoadPolicy] always returns.  It returns the error of
    [NewScanner] when the file cannot be opened.  Otherwise, with [t] the
    first logical line: it returns a guard only if [t] is "acl" or "datalog";
    for any other non-empty [t] it returns an error naming [t]; for an empty
    file ([t] is the end-of-input sentinel) it returns an error that says
    what the first line must be and names no token; and when [AddRule]
    refuses a later logical line, after accepting the lines before it, the
    error names that line and carries the error of [AddRule]. *)
Theorem C7_LoadPolicy (fs : Policy.FileSystem) (path : string) :
  match Policy.NewScanner fs path with
  | Err e => PolicyFile.LoadPolicy (guard := guard) fs path = Some (Err e)
  | Ok s0 =>
      exists t s1 r,
        Policy.NextLine s0 = Some (t, s1) /\
        PolicyFile.LoadPolicy (guard := guard) fs path = Some r /\
        (is_ok r = true -> t = "acl" \/ t = "datalog") /\
        (t <> "acl" -> t <> "datalog" -> t <> "" ->
         r = Err (Errorf ("%s: expected 'datalog' or 'acl', found %q" ++ LF)
                    [ArgString path; ArgString t])
         /\ exists e, r = Err e /\ names e t) /\
        (t = "" ->
         r = Err (Errorf ("%s: first line must specify 'datalog' or 'acl'" ++ LF)
                    [ArgString path])) /\
        (forall g0 pre line post g1 g2 err,
            t = "acl" /\ g0 = NewACLGuard \/
            t = "datalog" /\ g0 = NewTemporaryDatalogGuard ->
            logical_lines s1 = (pre ++ line :: post)%list ->
            add_rules g0 pre = inl g1 ->
            AddRule g1 line = (g2, Some err) ->
            r = Err (Errorf ("%s: %s; processing this line:" ++ LF ++ "> %s" ++ LF)
                       [ArgString path; ArgError err; ArgString line]))
  end.
Proof.
  destruct (Policy.NewScanner fs path) as [s0|e] eqn:Hnew.
  2:{ unfold PolicyFile.LoadPolicy. now rewrite Hnew. }
  destruct (LoadPolicy_spec fs path Hnew) as (t & s1 & Hline & Hload).
  exists t, s1. eexists. split; [exact Hline|]. split; [exact Hload|].
  repeat split.
  - destruct (t =? "acl")%string eqn:E1; [apply String.eqb_eq in E1; auto|].
    destruct (t =? "datalog")%string eqn:E2; [apply String.eqb_eq in E2; auto|].
    destruct (t =? "")%string; discriminate.
  - apply String.eqb_neq in H, H0, H1. now rewrite H, H0, H1.
  - apply String.eqb_neq in H, H0, H1. rewrite H, H0, H1.
    eexists. split; [reflexivity|]. simpl. auto.
  - intros ->. reflexivity.
  - intros g0 pre line post g1 g2 err Hkind Hlines Hpre Hadd.
    rewrite Hlines.
    assert (Hl : loaded path g0 (pre ++ line :: post) =
                 Err (Errorf ("%s: %s; processing this line:" ++ LF ++ "> %s" ++ LF)
                        [ArgString path; ArgError err; ArgString line])).
    { unfold loaded.
      assert (E : add_rules g0 (pre ++ line :: post) = inr (line, err))
        by (apply add_rules_failure with (g' := g1) (g'' := g2); assumption).
      now rewrite E. }
    destruct Hkind as [[-> ->]|[-> ->]]; exact Hl.
Qed.

End LoadPolicyProofs.

(** C7, as stated, fails for the empty file: loading it yields an error, but
    the error names no token. *)
Lemma C7_counterexample :
  let fs := one_file "policy" "" in
  exists s0 s1 e,
    Policy.NewScanner fs "policy" = Ok s0 /\
    Policy.NextLine s0 = Some ("", s1) /\
    PolicyFile.LoadPolicy (guard := list string) fs "policy" = Some (Err e) /\
    e = Errorf ("%s: first line must specify 'datalog' or 'acl'" ++ LF)
          [ArgString "policy"] /\
    ~ names e "".
Proof.
  do 3 eexists. repeat split; try (vm_compute; reflexivity).
  simpl. intros [H|[]]. discriminate.
Qed.

(* ------------------------------------------------------------------ *)
(** ** The scanner on the example of the specification *)

(** C8.  On the example input, in whatever pieces the reader delivers it,
    [NextLine] returns "line onecontinued", then "line two", then the empty
    end-of-input sentinel. *)
Theorem C8_scanner_example chunks :
  concat chunks = bytes example ->
  let s0 := Bufio.NewScanner chunks Policy.split in
  exists s1 s2 s3,
    Policy.NextLine s0 = Some ("line onecontinued", s1) /\
    Policy.NextLine s1 = Some ("line two", s2) /\
    Policy.NextLine s2 = Some ("", s3).
Proof.
  intros Hchunks s0.
  destruct (reading_NewScanner chunks) as [H0 E0]. fold s0 in H0, E0.
  rewrite Hchunks in E0.
  destruct (NextLine_stream H0) as (s1 & L1 & H1 & E1). rewrite E0 in L1, E1.
  destruct (NextLine_stream H1) as (s2 & L2 & H2 & E2). rewrite E1 in L2, E2.
  destruct (NextLine_stream H2) as (s3 & L3 & _ & _). rewrite E2 in L3.
  exists s1, s2, s3. repeat split; [exact L1|exact L2|exact L3].
Qed.

(** The example delivered in five reads, one of them empty and one ending
    between the backslash and the line feed of the continuation. *)
Lemma C8_scanner_example_witness :
  let chunks :=
    [bytes "# comm"; bytes ("ent" ++ LF ++ "line one\")%string; [];
     bytes (LF ++ "continued" ++ LF ++ LF ++ "line")%string;
     bytes (" two" ++ LF)%string] in
  concat chunks = bytes example /\
  exists s1 s2 s3,
    Policy.NextLine (Bufio.NewScanner chunks Policy.split)
    = Some ("line onecontinued", s1) /\
    Policy.NextLine s1 = Some ("line two", s2) /\
    Policy.NextLine s2 = Some ("", s3).
Proof.
  intros chunks. split; [reflexivity|].
  apply (C8_scanner_example chunks). reflexivity.
Defined.

(* ------------------------------------------------------------------ *)
(** ** The certificate-policy extension *)

Import Der.
Local Open Scope list_scope.

Lemma marshal_oid_SIV :
  Asn1.marshalObjectIdentifier X509.idSubjectIdentityValidated = Ok [x67; x81; x0c; x01; x02; x02].
Proof. vm_compute. reflexivity. Qed.
Lemma marshal_oid_CPS :
  Asn1.marshalObjectIdentifier X509.idQtCertificationPracticeStatement = Ok [x2b; x06; x01; x05; x05; x07; x02; x01].
Proof. vm_compute. reflexivity. Qed.
Lemma marshal_oid_Unotice :
  Asn1.marshalObjectIdentifier X509.idQtUnotice = Ok [x2b; x06; x01; x05; x05; x07; x02; x02].
Proof. vm_compute. reflexivity. Qed.

(** The tag of the string of the user notice, as an identifier octet. *)
Lemma Marshal_pi cps unotice :
  Asn1.Marshal (X509.pi cps unotice) =
  match Asn1.marshalIA5String cps with
  | Err e => Err e
  | Ok _ =>
      if forallb Asn1.isPrintable (bytes unotice)
      then Ok (Der.encoding x13 cps unotice)
      else if Asn1.utf8_Valid (bytes unotice)
           then Ok (Der.encoding x0c cps unotice)
           else Err (ErrorsNew "asn1: string not valid UTF-8")
  end.
Proof.
  unfold Asn1.Marshal, X509.pi, X509.policyInformation, X509.policyQualifierInfo,
    X509.policyQualifierInfoSequence.
  cbn -[Asn1.marshalTagAndLength Asn1.marshalObjectIdentifier Asn1.stringTag
        Asn1.marshalIA5String bytes].
  rewrite marshal_oid_SIV, marshal_oid_CPS, marshal_oid_Unotice.
  unfold Asn1.marshalIA5String.
  destruct (existsb _ (bytes cps)); [reflexivity|].
  change (Asn1.stringTag (Asn1.mkParams Asn1.tagIA5String false) cps)
    with (Ok (A := N) Asn1.tagIA5String).
  unfold Asn1.stringTag. cbn [Asn1.stringType Asn1.noParams N.eqb].
  destruct (forallb Asn1.isPrintable (bytes unotice)).
  - cbn -[Asn1.marshalTagAndLength bytes]. rewrite !app_nil_r. reflexivity.
  - destruct (Asn1.utf8_Valid (bytes unotice)); [|reflexivity].
    cbn -[Asn1.marshalTagAndLength bytes]. rewrite !app_nil_r. reflexivity.
Qed.

Lemma holed_notice unotice : holed unotice (fun t => Der.noticeString t unotice).
Proof. exists []. reflexivity. Qed.

Lemma holed_app unotice pre X :
  holed unotice X -> holed unotice (fun t => pre ++ X t).
Proof.
  intros [F H]. exists (pre ++ F). intros t. now rewrite H, app_assoc.
Qed.

Lemma holed_tlv unotice b X :
  holed unotice X -> holed unotice (fun t => Der.tlv b (X t)).
Proof.
  intros [F H].
  exists (b :: Der.lenbytes (N.of_nat (length (X x13))) ++ F).
  intros t. unfold Der.tlv.
  assert (E : length (X t) = length (X x13)).
  { rewrite (H t), (H x13), !length_app. reflexivity. }
  rewrite E, (H t). cbn [app]. now rewrite app_assoc.
Qed.

Lemma holed_encoding cps unotice :
  holed unotice (fun t => Der.encoding t cps unotice).
Proof.
  unfold Der.encoding, Der.policyInformation, Der.qualifiers, Der.unoticeQualifier.
  repeat first [ apply holed_tlv | apply holed_app | apply holed_notice ].
Qed.

Lemma split_last_two (A : Type) (l : list A) :
  (2 <= length l)%nat -> exists pre a b, l = (pre ++ [a; b])%list.
Proof.
  intros H. exists (firstn (length l - 2) l).
  pose proof (firstn_skipn (length l - 2) l) as E.
  pose proof (length_skipn (length l - 2) l) as L.
  destruct (skipn (length l - 2) l) as [|a [|b [|c r]]]; simpl in L; try lia.
  exists a, b. now rewrite E.
Qed.

Lemma length_bytes s : length (bytes s) = String.length s.
Proof.
  unfold bytes, list_byte_of_string.
  rewrite length_map. induction s; simpl; congruence.
Qed.

Lemma lengthLength_loop_le fuel n :
  (1 <= Asn1.lengthLength_loop fuel n <= S fuel)%nat.
Proof.
  revert n. induction fuel as [|f IH]; intros n; cbn [Asn1.lengthLength_loop]; [lia|].
  destruct (255 <? n)%N; [|lia]. specialize (IH (N.shiftr n 8)). lia.
Qed.

Lemma length_marshalLength_loop k i : length (Asn1.marshalLength_loop k i) = k.
Proof. induction k; simpl; auto. Qed.

Lemma length_lenbytes n : (1 <= length (Der.lenbytes n) <= 10)%nat.
Proof.
  unfold Der.lenbytes. destruct (128 <=? n)%N; [|simpl; lia].
  cbn [length]. unfold Asn1.marshalLength, Asn1.lengthLength.
  rewrite length_marshalLength_loop.
  pose proof (lengthLength_loop_le 8 n). lia.
Qed.

(** The encoded value ends with the two octets before the user notice and
    the user notice. *)
Lemma encoding_ends t cps unotice :
  exists pre a l,
    Der.encoding t cps unotice = pre ++ a :: l :: bytes unotice.
Proof.
  destruct (holed_encoding cps unotice) as [F HF].
  pose proof (length_lenbytes (N.of_nat (length (bytes unotice)))) as Hl.
  destruct (@split_last_two _ (F ++ t :: Der.lenbytes (N.of_nat (length (bytes unotice)))))
    as (pre & a & l & E).
  { rewrite length_app. simpl. lia. }
  exists pre, a, l. rewrite HF. unfold Der.noticeString, Der.tlv.
  change (t :: Der.lenbytes (N.of_nat (length (bytes unotice))) ++ bytes unotice)
    with ((t :: Der.lenbytes (N.of_nat (length (bytes unotice)))) ++ bytes unotice).
  rewrite app_assoc, E, <- app_assoc. reflexivity.
Qed.

(** The check and the patch of [NewCertficationPolicy] on an output that ends
    with two bytes [t], [l] and the user notice. *)
Lemma patch_spec cps unotice pre t l :
  Asn1.Marshal (X509.pi cps unotice) = Ok (pre ++ t :: l :: bytes unotice)%list ->
  X509.NewCertficationPolicy cps unotice =
  if byte_eqb t x13
     && (Z.of_N (Byte.to_N l) =? Z.of_nat (String.length unotice))%Z
  then Ok (X509.mkExtension X509.idCertificatePolicies false
             (pre ++ x1a :: l :: bytes unotice)%list)
  else Err (Errorf "Unexpected asn1 encoding: i=%d asn1=% x"
              [ArgInt (Z.of_nat (length (pre ++ t :: l :: bytes unotice)%list)
                       - Z.of_nat (String.length unotice));
               ArgBytes (pre ++ t :: l :: bytes unotice)%list]).
Proof.
  intros HM. unfold X509.NewCertficationPolicy. rewrite HM.
  set (b := (pre ++ t :: l :: bytes unotice)%list).
  assert (Hi : (Z.of_nat (length b) - Z.of_nat (String.length unotice)
                = Z.of_nat (length pre) + 2)%Z).
  { unfold b. rewrite length_app. simpl. rewrite length_bytes. lia. }
  rewrite Hi.
  replace (Z.of_nat (length pre) + 2 - 1)%Z with (Z.of_nat (S (length pre))) by lia.
  replace (Z.of_nat (length pre) + 2 - 2)%Z with (Z.of_nat (length pre)) by lia.
  unfold X509.index, X509.store, X509.asn1PrintableStringTag,
    X509.asn1VisibleStringTag. rewrite !Nat2Z.id.
  assert (E1 : nth (S (length pre)) b x00 = l).
  { unfold b. rewrite app_nth2 by lia.
    replace (S (length pre) - length pre)%nat with 1%nat by lia. reflexivity. }
  assert (E2 : nth (length pre) b x00 = t).
  { unfold b. rewrite app_nth2 by lia. now rewrite Nat.sub_diag. }
  rewrite E1, E2.
  assert (E3 : (firstn (length pre) b ++ x1a :: skipn (S (length pre)) b
                = pre ++ x1a :: l :: bytes unotice)%list).
  { unfold b. rewrite firstn_app, Nat.sub_diag, firstn_all, firstn_O, app_nil_r.
    rewrite skipn_app, skipn_all2 by lia.
    replace (S (length pre) - length pre)%nat with 1%nat by lia. reflexivity. }
  rewrite E3.
  assert (Hlt : (Z.of_nat (length pre) + 2 <? 2)%Z = false) by (apply Z.ltb_ge; lia).
  rewrite Hlt. simpl.
  destruct (Z.of_N (Byte.to_N l) =? _)%Z; destruct (byte_eqb t x13); reflexivity.
Qed.

(** C3.  When the marshaller fails, [NewCertficationPolicy] fails with its
    error.  Otherwise the marshaller's output ends with two bytes [t], [l]
    and the bytes of [unotice]: if [t] is the PrintableString tag (19) and
    [l] equals the length of [unotice], the result is that output with [t]
    alone replaced by the VisibleString tag (26); if not, the result is the
    encoding error. *)
Theorem C3_NewCertficationPolicy cps unotice :
  match Asn1.Marshal (X509.pi cps unotice) with
  | Err e => X509.NewCertficationPolicy cps unotice = Err e
  | Ok asn1Bytes =>
      exists pre t l,
        asn1Bytes = (pre ++ t :: l :: bytes unotice)%list /\
        X509.NewCertficationPolicy cps unotice =
        if byte_eqb t X509.asn1PrintableStringTag
           && (Z.of_N (Byte.to_N l) =? Z.of_nat (String.length unotice))%Z
        then Ok (X509.mkExtension X509.idCertificatePolicies false
                   (pre ++ X509.asn1VisibleStringTag :: l :: bytes unotice)%list)
        else Err (Errorf "Unexpected asn1 encoding: i=%d asn1=% x"
                    [ArgInt (Z.of_nat (length asn1Bytes)
                             - Z.of_nat (String.length unotice));
                     ArgBytes asn1Bytes])
  end.
Proof.
  destruct (Asn1.Marshal (X509.pi cps unotice)) as [asn1Bytes|e] eqn:HM.
  2:{ unfold X509.NewCertficationPolicy. now rewrite HM. }
  assert (Henc : exists t, asn1Bytes = Der.encoding t cps unotice).
  { rewrite Marshal_pi in HM.
    destruct (Asn1.marshalIA5String cps); [|discriminate].
    destruct (forallb _ _); [injection HM as <-; eauto|].
    destruct (Asn1.utf8_Valid _); [injection HM as <-; eauto|discriminate]. }
  destruct Henc as [t0 ->].
  destruct (encoding_ends t0 cps unotice) as (pre & t & l & E).
  exists pre, t, l. split; [exact E|].
  rewrite E in HM. rewrite (@patch_spec _ _ _ _ _ HM), E. reflexivity.
Qed.

Lemma to_N_byte_of_N n : (n < 256)%N -> Byte.to_N (byte_of_N n) = n.
Proof.
  intros H. unfold byte_of_N. rewrite N.mod_small by exact H.
  destruct (Byte.of_N n) as [b|] eqn:E.
  - now apply Byte.to_of_N.
  - apply Byte.of_N_None_iff in E. lia.
Qed.

Lemma to_N_byte_of_N_mod n : Byte.to_N (byte_of_N n) = (n mod 256)%N.
Proof.
  unfold byte_of_N.
  pose proof (N.mod_upper_bound n 256 ltac:(lia)) as H.
  destruct (Byte.of_N (n mod 256)) as [b|] eqn:E.
  - now apply Byte.to_of_N.
  - apply Byte.of_N_None_iff in E. lia.
Qed.

Lemma lor_shiftl_byte acc d :
  (d < 256)%N -> N.lor (N.shiftl acc 8) d = (acc * 256 + d)%N.
Proof.
  intros Hd.
  assert (H0 : N.land (N.shiftl acc 8) d = 0%N).
  { apply N.bits_inj. intros i. rewrite N.land_spec, N.bits_0.
    destruct (N.ltb_spec i 8) as [Hi|Hi].
    - now rewrite N.shiftl_spec_low.
    - destruct (N.eq_dec d 0) as [->|Hnz]; [now rewrite N.bits_0, andb_false_r|].
      rewrite (N.bits_above_log2 d i), andb_false_r; [reflexivity|].
      apply N.lt_le_trans with 8%N; [|exact Hi].
      apply N.log2_lt_pow2; [lia|exact Hd]. }
  rewrite <- N.lxor_lor, <- N.add_nocarry_lxor by exact H0.
  now rewrite N.shiftl_mul_pow2.
Qed.

(** Parsing the length octets that [marshalLength] wrote. *)
Lemma parseLength_marshalLength k n acc rest :
  (acc * 2 ^ (8 * N.of_nat k) + n mod 2 ^ (8 * N.of_nat k) < 2 ^ 31)%N ->
  (k = 0%nat \/ acc <> 0%N
   \/ ((n / 2 ^ (8 * N.of_nat (k - 1))) mod 256 <> 0)%N) ->
  Asn1.parseLength k acc (Asn1.marshalLength_loop k n ++ rest) =
  Ok ((acc * 2 ^ (8 * N.of_nat k) + n mod 2 ^ (8 * N.of_nat k))%N, rest).
Proof.
  revert acc. induction k as [|k IH]; intros acc Hlt Hnz.
  - simpl. rewrite N.mod_1_r. f_equal. f_equal. lia.
  - cbn [Asn1.marshalLength_loop app Asn1.parseLength].
    set (P := (2 ^ (8 * N.of_nat k))%N) in *.
    assert (HP : (0 < P)%N) by (apply N.neq_0_lt_0, N.pow_nonzero; lia).
    assert (EP : (2 ^ (8 * N.of_nat (S k)) = P * 256)%N).
    { unfold P. replace (8 * N.of_nat (S k))%N with (8 * N.of_nat k + 8)%N by lia.
      rewrite N.pow_add_r. reflexivity. }
    rewrite EP in *.
    rewrite to_N_byte_of_N_mod, N.shiftr_div_pow2. fold P.
    set (d := ((n / P) mod 256)%N).
    assert (Hd : (d < 256)%N) by (apply N.mod_upper_bound; lia).
    assert (Emod : (n mod (P * 256) = n mod P + P * d)%N)
      by apply N.Div0.mod_mul_r.
    rewrite Emod in *.
    assert (Hacc : (2 ^ 23 <=? acc)%N = false).
    { apply N.leb_gt. change (2 ^ 23)%N with 8388608%N.
      change (2 ^ 31)%N with 2147483648%N in Hlt.
      assert (acc * 256 * 1 <= acc * 256 * P)%N by (apply N.mul_le_mono_l; lia).
      pose proof (N.le_0_l (P * d)). pose proof (N.le_0_l (n mod P)).
      generalize dependent (n mod P)%N. generalize dependent (P * d)%N.
      intros. lia. }
    rewrite Hacc, lor_shiftl_byte by exact Hd.
    assert (Hnz' : (acc * 256 + d =? 0)%N = false).
    { apply N.eqb_neq. destruct Hnz as [H|[H|H]]; [discriminate|lia|].
      replace (S k - 1)%nat with k in H by lia. fold P in H. fold d in H.
      clearbody P d. clear - H. lia. }
    rewrite Hnz'. rewrite IH.
    + f_equal. f_equal. fold P. clearbody P d. clear - Emod. lia.
    + fold P. clearbody P d. clear - Hlt. lia.
    + right. left. apply N.eqb_neq in Hnz'. exact Hnz'.
Qed.

Ltac divmod := zify; Z.div_mod_to_equations; lia.

Lemma lengthLength_cases n :
  (n < 2 ^ 31)%N ->
  (n <= 255 /\ Asn1.lengthLength n = 1%nat)%N
  \/ (255 < n < 65536 /\ Asn1.lengthLength n = 2%nat)%N
  \/ (65536 <= n < 16777216 /\ Asn1.lengthLength n = 3%nat)%N
  \/ (16777216 <= n /\ Asn1.lengthLength n = 4%nat)%N.
Proof.
  intros H. change (2 ^ 31)%N with 2147483648%N in H.
  unfold Asn1.lengthLength. cbn [Asn1.lengthLength_loop].
  rewrite !N.shiftr_div_pow2. change (2 ^ 8)%N with 256%N.
  repeat match goal with
         | |- context [(255 <? ?x)%N] => destruct (N.ltb_spec 255 x)
         end; zify; Z.div_mod_to_equations; lia.
Qed.

Lemma byte_short_length (l : byte) :
  (Byte.to_N l < 128)%N ->
  N.land (Byte.to_N l) 128 = 0%N /\ N.land (Byte.to_N l) 127 = Byte.to_N l.
Proof.
  destruct l; intros H; first [ split; reflexivity | exfalso; vm_compute in H; discriminate ].
Qed.

(** Parsing the identifier and length octets of a TLV. *)
Lemma parseTagAndLength_lenbytes (b : byte) n rest :
  N.land (Byte.to_N b) 31 <> 31%N ->
  (n < 2 ^ 31)%N ->
  Asn1.parseTagAndLength b (Der.lenbytes n ++ rest) =
  Ok (Asn1.mkTagAndLength (N.shiftr (Byte.to_N b) 6) (N.land (Byte.to_N b) 31) n
        (N.land (Byte.to_N b) 32 =? 32)%N, rest).
Proof.
  intros Hb Hn. unfold Asn1.parseTagAndLength.
  apply N.eqb_neq in Hb. rewrite Hb.
  unfold Der.lenbytes. destruct (N.leb_spec 128 n) as [Hlong|Hshort].
  - assert (Hk : exists k, Asn1.lengthLength n = k /\ (1 <= k <= 4)%nat /\
                  (n < 2 ^ (8 * N.of_nat k))%N /\
                  ((n / 2 ^ (8 * N.of_nat (k - 1))) mod 256 <> 0)%N).
    { destruct (lengthLength_cases Hn) as [[H ->]|[[H ->]|[[H ->]|[H ->]]]];
        eexists; (split; [reflexivity|]); (split; [lia|]); simpl;
        change (2 ^ 31)%N with 2147483648%N in Hn.
      - change (2 ^ 8)%N with 256%N. change (2 ^ 0)%N with 1%N.
        rewrite N.div_1_r, N.mod_small; lia.
      - change (2 ^ 16)%N with 65536%N. change (2 ^ 8)%N with 256%N.
        split; [lia|]. rewrite N.mod_small; divmod.
      - change (2 ^ 24)%N with 16777216%N. change (2 ^ 16)%N with 65536%N.
        split; [lia|]. rewrite N.mod_small; divmod.
      - change (2 ^ 32)%N with 4294967296%N. change (2 ^ 24)%N with 16777216%N.
        split; [lia|]. rewrite N.mod_small; divmod. }
    destruct Hk as (k & Ek & Hk & Hlt & Htop).
    unfold Asn1.marshalLength. rewrite Ek. cbn [app].
    assert (Hfirst : Byte.to_N (byte_of_N (N.lor 128 (N.of_nat k))) = (128 + N.of_nat k)%N
                     /\ N.land (128 + N.of_nat k) 128 = 128%N
                     /\ N.land (128 + N.of_nat k) 127 = N.of_nat k).
    { destruct k as [|[|[|[|[|k]]]]]; try lia; vm_compute; auto. }
    destruct Hfirst as (-> & -> & ->).
    cbn [N.eqb Pos.eqb].
    assert (Hk0 : (N.of_nat k =? 0)%N = false) by (apply N.eqb_neq; lia).
    rewrite Hk0, Nat2N.id.
    rewrite parseLength_marshalLength.
    + rewrite N.mul_0_l, N.add_0_l, N.mod_small by exact Hlt. reflexivity.
    + rewrite N.mul_0_l, N.add_0_l, N.mod_small by exact Hlt. exact Hn.
    + right. right. exact Htop.
  - cbn [app].
    assert (Hl : Byte.to_N (byte_of_N n) = n) by (apply to_N_byte_of_N; lia).
    destruct (@byte_short_length (byte_of_N n)) as [E1 E2]; [lia|].
    rewrite E1, E2, Hl. reflexivity.
Qed.

Section ParseTlv.

Variables (body rest : list byte).
Hypothesis Hlen : (N.of_nat (length body) < 2 ^ 31)%N.

Lemma tlv_app b : Der.tlv b body ++ rest
  = b :: Der.lenbytes (N.of_nat (length body)) ++ body ++ rest.
Proof. unfold Der.tlv. cbn [app]. now rewrite <- app_assoc. Qed.

Lemma inner_bytes :
  firstn (N.to_nat (N.of_nat (length body))) (body ++ rest) = body
  /\ skipn (N.to_nat (N.of_nat (length body))) (body ++ rest) = rest
  /\ (N.of_nat (length (body ++ rest)) <? N.of_nat (length body))%N = false.
Proof.
  rewrite Nat2N.id. repeat split.
  - rewrite firstn_app, Nat.sub_diag, firstn_all, firstn_O. apply app_nil_r.
  - rewrite skipn_app, Nat.sub_diag, skipn_all. reflexivity.
  - apply N.ltb_ge. rewrite length_app. lia.
Qed.

Lemma parseField_oid :
  Asn1.parseField Asn1.TObjectIdentifier (Der.tlv x06 body ++ rest) =
  match Asn1.parseObjectIdentifier body with
  | Ok oid => Ok (Asn1.PObjectIdentifier oid, rest)
  | Err e => Err e
  end.
Proof.
  rewrite tlv_app. cbn [Asn1.parseField].
  rewrite parseTagAndLength_lenbytes by (try exact Hlen; vm_compute; discriminate).
  destruct inner_bytes as (E1 & E2 & E3).
  cbn [Asn1.length_ Asn1.class Asn1.tag Asn1.isCompound].
  rewrite E1, E2, E3. reflexivity.
Qed.

Lemma parseField_raw b :
  N.land (Byte.to_N b) 31 <> 31%N ->
  Asn1.parseField Asn1.TRawValue (Der.tlv b body ++ rest) =
  Ok (Asn1.PRawValue
        (Asn1.mkRawValue (N.shiftr (Byte.to_N b) 6) (N.land (Byte.to_N b) 31)
           (N.land (Byte.to_N b) 32 =? 32)%N body (Der.tlv b body)), rest).
Proof.
  intros Hb. rewrite tlv_app. cbn [Asn1.parseField].
  rewrite parseTagAndLength_lenbytes by assumption.
  destruct inner_bytes as (E1 & E2 & E3).
  cbn [Asn1.length_ Asn1.class Asn1.tag Asn1.isCompound].
  rewrite E1, E2, E3. do 3 f_equal.
  rewrite <- tlv_app.
  replace (length (Der.tlv b body ++ rest) - length rest)%nat
    with (length (Der.tlv b body)) by (rewrite length_app; lia).
  rewrite firstn_app, Nat.sub_diag, firstn_all, firstn_O, app_nil_r.
  reflexivity.
Qed.

Lemma parseField_string b :
  b = x13 \/ b = x16 ->
  Asn1.parseField Asn1.TString (Der.tlv b body ++ rest) =
  match (if byte_eqb b x13 then Asn1.parsePrintableString body
         else Asn1.parseIA5String body) with
  | Ok s => Ok (Asn1.PString s, rest)
  | Err e => Err e
  end.
Proof.
  intros Hb. rewrite tlv_app. cbn [Asn1.parseField].
  rewrite parseTagAndLength_lenbytes
    by (try exact Hlen; destruct Hb as [-> | ->]; vm_compute; discriminate).
  destruct inner_bytes as (E1 & E2 & E3).
  cbn [Asn1.length_ Asn1.class Asn1.tag Asn1.isCompound].
  rewrite E1, E2, E3.
  destruct Hb as [-> | ->]; reflexivity.
Qed.

Lemma parseField_struct2 t1 t2 :
  Asn1.parseField (Asn1.TStruct [t1; t2]) (Der.tlv x30 body ++ rest) =
  match Asn1.parseField t1 body with
  | Err e => Err e
  | Ok (v1, ib1) =>
      match Asn1.parseField t2 ib1 with
      | Err e => Err e
      | Ok (v2, _) => Ok (Asn1.PStruct [v1; v2], rest)
      end
  end.
Proof.
  rewrite tlv_app. cbn [Asn1.parseField].
  rewrite parseTagAndLength_lenbytes by (try exact Hlen; vm_compute; discriminate).
  destruct inner_bytes as (E1 & E2 & E3).
  cbn [Asn1.length_ Asn1.class Asn1.tag Asn1.isCompound].
  rewrite E1, E2, E3.
  cbn -[Asn1.parseField].
  destruct (Asn1.parseField t1 body) as [[v1 ib1]|]; [|reflexivity].
  destruct (Asn1.parseField t2 ib1) as [[v2 ib2]|]; reflexivity.
Qed.

Lemma parseField_slice fs :
  Asn1.parseField (Asn1.TSlice (Asn1.TStruct fs)) (Der.tlv x30 body ++ rest) =
  match Asn1.countElements (length body) Asn1.tagSequence true body 0 with
  | Err e => Err e
  | Ok k =>
      match Asn1.parseElems (Asn1.parseField (Asn1.TStruct fs)) k body with
      | Ok vs => Ok (Asn1.PSlice vs, rest)
      | Err e => Err e
      end
  end.
Proof.
  rewrite tlv_app. cbn [Asn1.parseField].
  rewrite parseTagAndLength_lenbytes by (try exact Hlen; vm_compute; discriminate).
  destruct inner_bytes as (E1 & E2 & E3).
  cbn [Asn1.length_ Asn1.class Asn1.tag Asn1.isCompound].
  rewrite E1, E2, E3.
  reflexivity.
Qed.

Lemma countElements_tlv fuel k :
  Asn1.countElements (S fuel) Asn1.tagSequence true (Der.tlv x30 body ++ rest) k =
  Asn1.countElements fuel Asn1.tagSequence true rest (S k).
Proof.
  rewrite tlv_app. cbn [Asn1.countElements].
  rewrite parseTagAndLength_lenbytes by (try exact Hlen; vm_compute; discriminate).
  destruct inner_bytes as (E1 & E2 & E3).
  cbn [Asn1.length_ Asn1.class Asn1.tag Asn1.isCompound].
  rewrite E2, E3. reflexivity.
Qed.

End ParseTlv.

Lemma fits_app_l a b : fits (a ++ b) -> fits a.
Proof. unfold fits. rewrite length_app. lia. Qed.

Lemma fits_app_r a b : fits (a ++ b) -> fits b.
Proof. unfold fits. rewrite length_app. lia. Qed.

Lemma fits_tlv b body : fits (Der.tlv b body) -> fits body.
Proof. unfold fits, Der.tlv. cbn [length]. rewrite length_app. lia. Qed.

Lemma parseField_oid_nil body :
  fits body ->
  Asn1.parseField Asn1.TObjectIdentifier (Der.tlv x06 body) =
  match Asn1.parseObjectIdentifier body with
  | Ok oid => Ok (Asn1.PObjectIdentifier oid, [])
  | Err e => Err e
  end.
Proof. intros H. rewrite <- (@parseField_oid _ [] H). now rewrite app_nil_r. Qed.

Lemma parseField_raw_nil body b :
  fits body ->
  N.land (Byte.to_N b) 31 <> 31%N ->
  Asn1.parseField Asn1.TRawValue (Der.tlv b body) =
  Ok (Asn1.PRawValue
        (Asn1.mkRawValue (N.shiftr (Byte.to_N b) 6) (N.land (Byte.to_N b) 31)
           (N.land (Byte.to_N b) 32 =? 32)%N body (Der.tlv b body)), []).
Proof. intros H Hb. rewrite <- (@parseField_raw _ [] H b Hb). now rewrite app_nil_r. Qed.

Lemma parseField_string_nil body b :
  fits body ->
  b = x13 \/ b = x16 ->
  Asn1.parseField Asn1.TString (Der.tlv b body) =
  match (if byte_eqb b x13 then Asn1.parsePrintableString body
         else Asn1.parseIA5String body) with
  | Ok s => Ok (Asn1.PString s, [])
  | Err e => Err e
  end.
Proof. intros H Hb. rewrite <- (@parseField_string _ [] H b Hb). now rewrite app_nil_r. Qed.

Lemma countElements_nil fuel k :
  Asn1.countElements fuel Asn1.tagSequence true [] k = Ok k.
Proof. destruct fuel; reflexivity. Qed.

Lemma countElements_one body :
  fits body ->
  Asn1.countElements (length (Der.tlv x30 body)) Asn1.tagSequence true
    (Der.tlv x30 body) 0 = Ok 1%nat.
Proof.
  intros H. rewrite <- (app_nil_r (Der.tlv x30 body)) at 2.
  unfold Der.tlv at 1. cbn [length].
  rewrite (@countElements_tlv _ [] H _ _). apply countElements_nil.
Qed.

Lemma countElements_two body1 body2 :
  fits body1 -> fits body2 ->
  Asn1.countElements (length (Der.tlv x30 body1 ++ Der.tlv x30 body2))
    Asn1.tagSequence true (Der.tlv x30 body1 ++ Der.tlv x30 body2) 0 = Ok 2%nat.
Proof.
  intros H1 H2. rewrite length_app.
  unfold Der.tlv at 1 2. cbn [length Nat.add]. rewrite Nat.add_succ_r.
  rewrite (@countElements_tlv _ _ H1 _ _).
  rewrite <- (app_nil_r (Der.tlv x30 body2)).
  rewrite (@countElements_tlv _ [] H2 _ _). apply countElements_nil.
Qed.

Lemma parse_cpsQualifier cps rest :
  fits (Der.cpsQualifier cps) ->
  Asn1.parseField X509txt.qualifierType (Der.cpsQualifier cps ++ rest) =
  Ok (Asn1.PStruct
        [Asn1.PObjectIdentifier X509.idQtCertificationPracticeStatement;
         Asn1.PRawValue (rawCPS cps)], rest).
Proof.
  intros H. unfold Der.cpsQualifier in *. unfold X509txt.qualifierType.
  apply fits_tlv in H.
  rewrite (@parseField_struct2 _ rest H _ _).
  change Der.oidCPS with (Der.tlv x06 [x2b; x06; x01; x05; x05; x07; x02; x01]).
  rewrite parseField_oid by (vm_compute; reflexivity).
  change (Asn1.parseObjectIdentifier [x2b; x06; x01; x05; x05; x07; x02; x01])
    with (Ok X509.idQtCertificationPracticeStatement).
  cbv beta iota.
  rewrite parseField_raw_nil;
    [reflexivity | eapply fits_tlv, fits_app_r; exact H
    | vm_compute; discriminate].
Qed.

Lemma parse_unoticeQualifier t unotice rest :
  fits (Der.unoticeQualifier t unotice) ->
  Asn1.parseField X509txt.qualifierType (Der.unoticeQualifier t unotice ++ rest) =
  Ok (Asn1.PStruct
        [Asn1.PObjectIdentifier X509.idQtUnotice;
         Asn1.PRawValue (rawNotice t unotice)], rest).
Proof.
  intros H. unfold Der.unoticeQualifier in *. unfold X509txt.qualifierType.
  apply fits_tlv in H.
  rewrite (@parseField_struct2 _ rest H _ _).
  change Der.oidUnotice with (Der.tlv x06 [x2b; x06; x01; x05; x05; x07; x02; x02]).
  rewrite parseField_oid by (vm_compute; reflexivity).
  change (Asn1.parseObjectIdentifier [x2b; x06; x01; x05; x05; x07; x02; x02])
    with (Ok X509.idQtUnotice).
  cbv beta iota.
  rewrite parseField_raw_nil;
    [reflexivity | eapply fits_tlv, fits_app_r; exact H
    | vm_compute; discriminate].
Qed.

Lemma parse_encoding t cps unotice :
  fits (Der.encoding t cps unotice) ->
  Asn1.Unmarshal (Der.encoding t cps unotice) X509txt.piType =
  Ok (Asn1.PSlice
        [Asn1.PStruct
           [Asn1.PObjectIdentifier X509.idSubjectIdentityValidated;
            Asn1.PSlice
              [Asn1.PStruct
                 [Asn1.PObjectIdentifier X509.idQtCertificationPracticeStatement;
                  Asn1.PRawValue (rawCPS cps)];
               Asn1.PStruct
                 [Asn1.PObjectIdentifier X509.idQtUnotice;
                  Asn1.PRawValue (rawNotice t unotice)]]]], []).
Proof.
  intros H. unfold Asn1.Unmarshal, Der.encoding, X509txt.piType in *.
  apply fits_tlv in H.
  rewrite <- (app_nil_r (Der.tlv x30 _)).
  rewrite (@parseField_slice _ [] H _).
  unfold Der.policyInformation in *.
  pose proof (fits_tlv H) as H1.
  rewrite (countElements_one H1).
  cbn [Asn1.parseElems].
  rewrite <- (app_nil_r (Der.tlv x30 _)).
  rewrite (@parseField_struct2 _ [] H1 _ _).
  change Der.oidSubjectIdentityValidated
    with (Der.tlv x06 [x67; x81; x0c; x01; x02; x02]) in *.
  rewrite parseField_oid by (vm_compute; reflexivity).
  change (Asn1.parseObjectIdentifier [x67; x81; x0c; x01; x02; x02])
    with (Ok X509.idSubjectIdentityValidated).
  cbv beta iota.
  pose proof (fits_tlv (fits_app_r _ _ H1)) as H2.
  rewrite <- (app_nil_r (Der.tlv x30 _)).
  unfold X509txt.qualifierType at 1.
  rewrite (@parseField_slice _ [] H2 _).
  unfold Der.qualifiers in *.
  pose proof (fits_app_l _ _ H2) as Hc. pose proof (fits_app_r _ _ H2) as Hu.
  unfold Der.cpsQualifier at 1 2, Der.unoticeQualifier at 1 2.
  rewrite countElements_two
    by (apply (@fits_tlv x30); first [exact Hc | exact Hu]).
  fold (Der.cpsQualifier cps). fold (Der.unoticeQualifier t unotice).
  cbn [Asn1.parseElems].
  fold X509txt.qualifierType.
  rewrite (parse_cpsQualifier _ Hc).
  rewrite <- (app_nil_r (Der.unoticeQualifier t unotice)).
  rewrite (parse_unoticeQualifier [] Hu).
  reflexivity.
Qed.

Lemma str_bytes s : str (bytes s) = s.
Proof. apply string_of_list_byte_of_string. Qed.

Lemma lenbytes_short n : (n < 128)%N -> Der.lenbytes n = [byte_of_N n].
Proof.
  intros H. unfold Der.lenbytes.
  destruct (N.leb_spec 128 n); [lia|reflexivity].
Qed.

Lemma marshalIA5String_ok cps :
  Der.isIA5 cps = true -> Asn1.marshalIA5String cps = Ok (bytes cps).
Proof.
  unfold Der.isIA5, Asn1.marshalIA5String. intros H.
  assert (E : existsb (fun c => (127 <? Byte.to_N c)%N) (bytes cps) = false).
  { induction (bytes cps) as [|c l IH]; [reflexivity|].
    simpl in *. apply andb_true_iff in H as [Hc Hl].
    rewrite IH by exact Hl. apply N.ltb_lt in Hc.
    destruct (N.ltb_spec 127 (Byte.to_N c)); [lia|reflexivity]. }
  now rewrite E.
Qed.

Lemma parseIA5String_ok cps :
  Der.isIA5 cps = true -> Asn1.parseIA5String (bytes cps) = Ok cps.
Proof.
  unfold Der.isIA5, Asn1.parseIA5String. intros H.
  assert (E : existsb (fun c => (128 <=? Byte.to_N c)%N) (bytes cps) = false).
  { induction (bytes cps) as [|c l IH]; [reflexivity|].
    simpl in *. apply andb_true_iff in H as [Hc Hl].
    rewrite IH by exact Hl. apply N.ltb_lt in Hc.
    destruct (N.leb_spec 128 (Byte.to_N c)); [lia|reflexivity]. }
  now rewrite E, str_bytes.
Qed.

(** What [NewCertficationPolicy] returns for a printable user notice shorter
    than 128 bytes. *)
Lemma NewCertficationPolicy_ok cps unotice :
  Der.isIA5 cps = true ->
  Der.isPrintableString unotice = true ->
  (String.length unotice < 128)%nat ->
  X509.NewCertficationPolicy cps unotice =
  Ok (X509.mkExtension X509.idCertificatePolicies false
        (Der.encoding x1a cps unotice)).
Proof.
  intros Hcps Hun Hlen.
  destruct (holed_encoding cps unotice) as [F HF].
  assert (Hn : (N.of_nat (length (bytes unotice)) < 128)%N)
    by (rewrite length_bytes; lia).
  assert (Eshape : forall t, Der.encoding t cps unotice =
            F ++ t :: byte_of_N (N.of_nat (length (bytes unotice))) :: bytes unotice).
  { intros t. rewrite HF. unfold Der.noticeString, Der.tlv.
    now rewrite lenbytes_short by exact Hn. }
  assert (HM : Asn1.Marshal (X509.pi cps unotice) = Ok (Der.encoding x13 cps unotice)).
  { rewrite Marshal_pi, marshalIA5String_ok by exact Hcps.
    unfold Der.isPrintableString in Hun. now rewrite Hun. }
  rewrite (Eshape x13) in HM.
  rewrite (@patch_spec _ _ _ _ _ HM), to_N_byte_of_N by lia.
  rewrite length_bytes, nat_N_Z, Z.eqb_refl. cbn [byte_eqb Byte.eqb andb].
  change (byte_eqb x13 x13) with true. cbn [andb].
  now rewrite <- length_bytes, <- Eshape.
Qed.

Lemma fits_encoding t cps unotice :
  (N.of_nat (String.length cps) < 2 ^ 30)%N ->
  (String.length unotice < 128)%nat ->
  fits (Der.encoding t cps unotice).
Proof.
  intros Hc Hu. unfold fits.
  change (2 ^ 30)%N with 1073741824%N in Hc.
  change (2 ^ 31)%N with 2147483648%N.
  unfold Der.encoding, Der.policyInformation, Der.qualifiers, Der.cpsQualifier,
    Der.unoticeQualifier, Der.noticeString, Der.tlv.
  repeat (cbn [length] || rewrite length_app).
  rewrite !length_bytes.
  repeat match goal with
         | |- context [length (Der.lenbytes ?n)] =>
             let H := fresh in
             pose proof (length_lenbytes n) as H;
             generalize dependent (length (Der.lenbytes n)); intros
         end.
  change (length Der.oidSubjectIdentityValidated) with 8%nat.
  change (length Der.oidCPS) with 10%nat.
  change (length Der.oidUnotice) with 10%nat.
  lia.
Qed.

(** C2 (amended).  For an ASCII [cps] shorter than 2^30 bytes and a
    [unotice] that is made of PrintableString characters and is shorter than
    128 bytes, encoding succeeds and decoding the extension returns the two
    strings. *)
Theorem C2_round_trip cps unotice :
  Der.isIA5 cps = true ->
  Der.isPrintableString unotice = true ->
  (String.length unotice < 128)%nat ->
  (N.of_nat (String.length cps) < 2 ^ 30)%N ->
  exists ext,
    X509.NewCertficationPolicy cps unotice = Ok ext /\
    X509txt.ExtractCertificationPolicy ext = Ok (cps, unotice).
Proof.
  intros Hcps Hun Hlen Hbound.
  eexists. split; [now apply NewCertficationPolicy_ok|].
  pose proof (fits_encoding x1a cps unotice Hbound Hlen) as Hfit.
  unfold X509txt.ExtractCertificationPolicy.
  cbn [X509.Id X509.Value].
  change (Asn1.oid_Equal X509.idCertificatePolicies X509.idCertificatePolicies)
    with true. cbn [negb].
  rewrite (parse_encoding Hfit).
  change (Asn1.oid_Equal X509.idSubjectIdentityValidated
            X509.idSubjectIdentityValidated) with true.
  cbn [negb map X509txt.qualifier].
  change (Asn1.oid_Equal X509.idQtCertificationPracticeStatement
            X509.idQtCertificationPracticeStatement) with true.
  change (Asn1.oid_Equal X509.idQtUnotice X509.idQtUnotice) with true.
  cbn [negb rawCPS rawNotice Asn1.FullBytes Asn1.Bytes].
  assert (Hfc : fits (bytes cps)).
  { unfold Der.encoding, Der.policyInformation, Der.qualifiers, Der.cpsQualifier in Hfit.
    eapply fits_tlv, fits_app_r, fits_tlv, fits_app_l, fits_tlv, fits_app_r,
      fits_tlv, fits_tlv. exact Hfit. }
  assert (Hfu : fits (bytes unotice)).
  { unfold Der.encoding, Der.policyInformation, Der.qualifiers, Der.unoticeQualifier,
      Der.noticeString in Hfit.
    eapply fits_tlv, fits_tlv, fits_app_r, fits_tlv, fits_app_r, fits_tlv, fits_app_r,
      fits_tlv, fits_tlv. exact Hfit. }
  unfold Asn1.Unmarshal.
  rewrite (@parseField_string_nil _ x16 Hfc) by auto.
  change (byte_eqb x16 x13) with false. cbv iota.
  rewrite parseIA5String_ok by exact Hcps.
  unfold Der.noticeString, Der.tlv at 1.
  change (byte_eqb x1a X509.asn1VisibleStringTag) with true. cbv iota.
  change (X509.asn1PrintableStringTag
          :: Der.lenbytes (N.of_nat (length (bytes unotice))) ++ bytes unotice)
    with (Der.tlv x13 (bytes unotice)).
  rewrite (@parseField_string_nil _ x13 Hfu) by auto.
  change (byte_eqb x13 x13) with true. cbv iota.
  unfold Asn1.parsePrintableString. unfold Der.isPrintableString in Hun.
  rewrite Hun, str_bytes. reflexivity.
Qed.

Lemma C2_round_trip_witness :
  let cps := "https://0.0.0.0:8443/security/5feceb66ffc86f38d952786c6d696c79c2dbc239dd4e91b46729d73a27fb57e9.txt"%string in
  let unotice := "https://0.0.0.0:8443/security/6b86b273ff34fce19d6b804eff5a3f5747ada4eaa22f1d49c01e52ddb7875b4b.txt"%string in
  exists ext,
    X509.NewCertficationPolicy cps unotice = Ok ext /\
    X509txt.ExtractCertificationPolicy ext = Ok (cps, unotice).
Proof.
  intros cps unotice.
  apply (@C2_round_trip cps unotice);
    [reflexivity | reflexivity | cbv; lia | reflexivity].
Defined.

(** C2, as stated, fails: an underscore is printable ASCII but no
    PrintableString character, and a URL of 128 bytes has a two-byte length;
    in both cases encoding is refused, so there is nothing to decode. *)
Lemma C2_counterexample :
  let cps := "https://ca.example/cps.txt"%string in
  let unotice := "https://ca.example/user_notice.txt"%string in
  let long := ("https://ca.example/" ++ "0123456789abcdef0123456789abcdef"
               ++ "0123456789abcdef0123456789abcdef0123456789abcdef"
               ++ "0123456789abcdef0123456789abcde")%string in
  Der.isPrintableASCII cps = true /\
  Der.isPrintableASCII unotice = true /\
  is_ok (X509.NewCertficationPolicy cps unotice) = false /\
  Der.isPrintableString long = true /\
  String.length long = 130%nat /\
  is_ok (X509.NewCertficationPolicy cps long) = false.
Proof. vm_compute. repeat split. Qed.

(* ------------------------------------------------------------------ *)
(** ** The logical lines of a rule file *)

Import LogicalLines.

Lemma next_line_fuel_shorter fuel data :
  fst (next_line_fuel fuel data) <> ""%string ->
  (length (snd (next_line_fuel fuel data)) < length data)%nat.
Proof.
  revert data. induction fuel as [|fuel IH]; intros data; cbn [next_line_fuel].
  - cbn. congruence.
  - destruct (next_token data) as [[tok rest]|] eqn:Htok; [|cbn; congruence].
    apply next_token_shorter in Htok.
    destruct (negb _); cbn [fst snd]; [intros _; exact Htok|].
    intros H. specialize (IH rest H). lia.
Qed.

Lemma next_line_step data :
  next_line data =
  match next_token data with
  | Some (tok, rest) =>
      if negb (String.length (TrimSpace (str tok)) =? 0)%nat
      then (TrimSpace (str tok), rest)
      else next_line rest
  | None => (""%string, [])
  end.
Proof.
  unfold next_line at 1. cbn [next_line_fuel].
  destruct (next_token data) as [[tok rest]|] eqn:Htok; [|reflexivity].
  destruct (negb _); [reflexivity|].
  apply next_token_shorter in Htok.
  apply next_line_fuel_enough; lia.
Qed.

Lemma next_line_shorter data :
  fst (next_line data) <> ""%string ->
  (length (snd (next_line data)) < length data)%nat.
Proof. apply next_line_fuel_shorter. Qed.

Lemma all_lines_fuel_enough fuel1 fuel2 data :
  (length data < fuel1)%nat -> (length data < fuel2)%nat ->
  all_lines_fuel fuel1 data = all_lines_fuel fuel2 data.
Proof.
  revert fuel2 data.
  induction fuel1 as [|fuel1 IH]; intros fuel2 data H1 H2; [lia|].
  destruct fuel2 as [|fuel2]; [lia|]. cbn [all_lines_fuel].
  pose proof (next_line_shorter data) as Hs.
  destruct (next_line data) as [t rest]. cbn [fst snd] in Hs.
  destruct (t =? "")%string eqn:E; [reflexivity|].
  apply String.eqb_neq in E. specialize (Hs E).
  f_equal. apply IH; lia.
Qed.

Lemma all_lines_step data :
  all_lines data =
  let '(t, rest) := next_line data in
  if (t =? "")%string then [] else t :: all_lines rest.
Proof.
  unfold all_lines at 1. cbn [all_lines_fuel].
  pose proof (next_line_shorter data) as Hs.
  destruct (next_line data) as [t rest]. cbn [fst snd] in Hs.
  destruct (t =? "")%string eqn:E; [reflexivity|].
  apply String.eqb_neq in E. specialize (Hs E).
  f_equal. apply all_lines_fuel_enough; lia.
Qed.



Lemma all_lines_end data : next_token data = None -> all_lines data = [].
Proof.
  intros Htok. now rewrite all_lines_step, next_line_step, Htok.
Qed.

(** The lines [NextLine] returns are the lines of the input the scanner has
    yet to deliver. *)
Lemma logical_lines_fuel_stream fuel s :
  reading s -> (length (stream s) < fuel)%nat ->
  logical_lines_fuel fuel s = all_lines_fuel fuel (stream s).
Proof.
  revert s. induction fuel as [|fuel IH]; intros s Hs Hfuel; [lia|].
  cbn [logical_lines_fuel all_lines_fuel].
  destruct (NextLine_stream Hs) as (s' & -> & Hs' & E').
  pose proof (next_line_shorter (stream s)) as Hlt.
  destruct (next_line (stream s)) as [t rest]. cbn [fst snd] in *.
  destruct (t =? "")%string eqn:E; [reflexivity|].
  apply String.eqb_neq in E. specialize (Hlt E).
  f_equal. rewrite <- E'. apply IH; [exact Hs'|]. rewrite E'. lia.
Qed.

Lemma logical_lines_stream s :
  reading s -> logical_lines s = all_lines (stream s).
Proof.
  intros Hs. unfold logical_lines, all_lines. rewrite <- length_stream.
  apply logical_lines_fuel_stream; [exact Hs|lia].
Qed.

Lemma scan_chunks_all_lines chunks : scan_chunks chunks = all_lines (concat chunks).
Proof.
  unfold scan_chunks. destruct (reading_NewScanner chunks) as [H E].
  now rewrite logical_lines_stream, E.
Qed.

Lemma scan_all_lines data : scan data = all_lines data.
Proof.
  change (scan data) with (scan_chunks [data]).
  rewrite scan_chunks_all_lines. cbn [concat]. now rewrite app_nil_r.
Qed.

(* ------------------------------------------------------------------ *)
(** ** What [split] cuts from a physical line *)































(** At the end of the input: nothing, or a last line without line feed. *)
Lemma next_token_nil : next_token [] = None.
Proof. reflexivity. Qed.


(* ------------------------------------------------------------------ *)
(** ** Files, line by line *)

Lemma line_of_nil : line_of [] = [].
Proof. reflexivity. Qed.











(** X1.  the logical lines are those of the file content, whatever the pieces
    the reader delivers it in. *)
Theorem scan_chunks_concat chunks : scan_chunks chunks = scan (concat chunks).
Proof. now rewrite scan_chunks_all_lines, scan_all_lines. Qed.

(* ------------------------------------------------------------------ *)
(** ** What the lines are made of; the end of the input *)

Lemma ReplaceAll_no_LF_length n data :
  (length data <= n)%nat -> ~ In x0a (Policy.ReplaceAll_continuations data).
Proof.
  revert data. induction n as [|n IH]; intros data Hn.
  - destruct data; [cbn; tauto|cbn in Hn; lia].
  - destruct data as [|b rest]; [cbn; tauto|]. cbn [length] in Hn.
    cbn [Policy.ReplaceAll_continuations].
    destruct (byte_eqb b x0a) eqn:Eb; [apply IH; lia|].
    assert (Hb : b <> x0a).
    { intros ->. discriminate. }
    assert (Hkeep : ~ In x0a (b :: Policy.ReplaceAll_continuations rest)).
    { intros [H|H]; [congruence|]. revert H. apply IH. lia. }
    destruct rest as [|c rest']; [exact Hkeep|]. cbn [length] in Hn.
    destruct (_ && byte_eqb c x0a); [apply IH; lia|].
    destruct rest' as [|d rest'']; [exact Hkeep|]. cbn [length] in Hn.
    destruct (_ && _ && _); [apply IH; lia|exact Hkeep].
Qed.

Lemma ReplaceAll_no_LF data : ~ In x0a (Policy.ReplaceAll_continuations data).
Proof. apply (@ReplaceAll_no_LF_length (length data)). lia. Qed.

Lemma In_skipn (A : Type) (x : A) k l : In x (skipn k l) -> In x l.
Proof.
  intros H. rewrite <- (firstn_skipn k l). apply in_or_app. now right.
Qed.

Lemma trim_left_In fuel s x : In x (trim_left fuel s) -> In x s.
Proof.
  revert s. induction fuel as [|fuel IH]; intros s; cbn [trim_left]; [auto|].
  destruct (leading_space s); [|auto].
  intros H. apply IH in H. eapply In_skipn; eauto.
Qed.

Lemma trim_right_rev_In fuel s x : In x (trim_right_rev fuel s) -> In x s.
Proof.
  revert s. induction fuel as [|fuel IH]; intros s; cbn [trim_right_rev]; [auto|].
  destruct (trailing_space s); [|auto].
  intros H. apply IH in H. eapply In_skipn; eauto.
Qed.

(** Trimming only removes bytes. *)
Lemma TrimSpace_bytes_In s x : In x (TrimSpace_bytes s) -> In x s.
Proof.
  unfold TrimSpace_bytes. intros H. apply in_rev in H.
  apply trim_right_rev_In in H. apply in_rev in H.
  eapply trim_left_In; eauto.
Qed.

Lemma bytes_str l : bytes (str l) = l.
Proof. apply list_byte_of_string_of_list_byte. Qed.

Lemma next_token_no_LF data tok rest :
  next_token data = Some (tok, rest) -> ~ In x0a tok.
Proof.
  unfold next_token, Policy.split.
  destruct (_ && _); [discriminate|].
  destruct (match nth_error data _ with Some b => byte_eqb b x23 | None => false end).
  - destruct (Policy.find_newline _ _); intros [= <- _]; cbn; tauto.
  - destruct (Policy.find_line_end _ _ _).
    + intros [= <- _]. apply ReplaceAll_no_LF.
    + pose proof (ReplaceAll_no_LF data) as H.
      destruct (Policy.ReplaceAll_continuations data); [discriminate|].
      intros [= <- _]. exact H.
Qed.

Lemma next_line_fuel_no_LF fuel data :
  ~ In x0a (bytes (fst (next_line_fuel fuel data))).
Proof.
  revert data. induction fuel as [|fuel IH]; intros data; cbn [next_line_fuel];
    [cbn; tauto|].
  destruct (next_token data) as [[tok rest]|] eqn:Htok; [|cbn; tauto].
  destruct (negb _); [|apply IH]. cbn [fst]. unfold TrimSpace.
  rewrite !bytes_str. intros H. apply TrimSpace_bytes_In in H.
  revert H. eapply next_token_no_LF; eauto.
Qed.

Lemma all_lines_fuel_no_LF fuel data :
  Forall (fun t => ~ In x0a (bytes t)) (all_lines_fuel fuel data).
Proof.
  revert data. induction fuel as [|fuel IH]; intros data; cbn [all_lines_fuel];
    [constructor|].
  pose proof (next_line_fuel_no_LF (S (length data)) data) as H.
  fold (next_line data) in H.
  destruct (next_line data) as [t rest]. cbn [fst] in H.
  destruct (t =? "")%string; constructor; auto.
Qed.

(** X5.  no logical line holds a line feed, whatever the file and the pieces
    it is read in. *)
Theorem scan_chunks_no_line_feed chunks :
  Forall (fun t => ~ In x0a (bytes t)) (scan_chunks chunks).
Proof.
  rewrite scan_chunks_all_lines. apply all_lines_fuel_no_LF.
Qed.




(* ------------------------------------------------------------------ *)
(** ** [LoadPolicy] and the lines of the file *)

Lemma scan_chunks_first chunks t s1 :
  Policy.NextLine (Bufio.NewScanner chunks Policy.split) = Some (t, s1) ->
  scan_chunks chunks = if (t =? "")%string then [] else t :: logical_lines s1.
Proof.
  intros Hline. destruct (reading_NewScanner chunks) as [H0 E0].
  destruct (NextLine_stream H0) as (s' & E & Hs' & Es').
  rewrite Hline in E. injection E as -> <-.
  rewrite scan_chunks_all_lines, all_lines_step, <- E0.
  destruct (next_line _) as [t rest]. cbn [fst snd] in *.
  destruct (t =? "")%string; [reflexivity|].
  now rewrite logical_lines_stream, Es'.
Qed.

Section LoadPolicyLines.

Context {guard : Type} {G : Guard guard}.

(** X7.  [LoadPolicy] is a function of the logical lines of the file: the
    first one chooses the guard, the others are its rules, added in order up
    to the first one [AddRule] refuses. *)
Theorem LoadPolicy_lines (fs : Policy.FileSystem) (path : string) chunks :
  fs path = Ok chunks ->
  PolicyFile.LoadPolicy (guard := guard) fs path =
  Some match scan_chunks chunks with
       | [] =>
           Err (Errorf ("%s: first line must specify 'datalog' or 'acl'" ++ LF)
                  [ArgString path])
       | t :: rules =>
           if (t =? "acl")%string then loaded path NewACLGuard rules
           else if (t =? "datalog")%string
                then loaded path NewTemporaryDatalogGuard rules
           else Err (Errorf ("%s: expected 'datalog' or 'acl', found %q" ++ LF)
                       [ArgString path; ArgString t])
       end.
Proof.
  intros Hfs.
  assert (Hnew : Policy.NewScanner fs path = Ok (Bufio.NewScanner chunks Policy.split)).
  { unfold Policy.NewScanner. now rewrite Hfs. }
  destruct (LoadPolicy_spec fs path Hnew) as (t & s1 & Hline & ->).
  rewrite (scan_chunks_first _ Hline).
  destruct (t =? "")%string eqn:E; [|reflexivity].
  apply String.eqb_eq in E. subst t. reflexivity.
Qed.

End LoadPolicyLines.

Lemma LoadPolicy_lines_witness :
  let fs := one_file "policy" ("datalog" ++ LF ++ "# rules" ++ LF ++ "Known(a)" ++ LF) in
  PolicyFile.LoadPolicy (guard := list string) fs "policy" = Some (Ok ["Known(a)"%string]).
Proof.
  intros fs. etransitivity.
  - apply (@LoadPolicy_lines (list string) Examples.listGuard fs "policy"
             [bytes ("datalog" ++ LF ++ "# rules" ++ LF ++ "Known(a)" ++ LF)]).
    reflexivity.
  - reflexivity.
Defined.

Section DefaultPolicy.

Context {guard : Type} {G : Guard guard}.

(** X8.  the default policy file loads, in whatever pieces it is read, as an
    ACL guard without any rule: all it holds besides the line "acl" is
    comments. *)
Theorem LoadPolicy_defPolicy (fs : Policy.FileSystem) (path : string) chunks :
  fs path = Ok chunks ->
  concat chunks = bytes PolicyDefaults.defPolicy ->
  PolicyFile.LoadPolicy (guard := guard) fs path = Some (Ok NewACLGuard).
Proof.
  intros Hfs Hcontent.
  rewrite (LoadPolicy_lines fs path Hfs), scan_chunks_concat, Hcontent.
  assert (E : scan (bytes PolicyDefaults.defPolicy) = ["acl"%string])
    by (vm_compute; reflexivity).
  rewrite E. reflexivity.
Qed.

End DefaultPolicy.

Lemma LoadPolicy_defPolicy_witness :
  PolicyFile.LoadPolicy (guard := list string)
    (one_file "policy" PolicyDefaults.defPolicy) "policy" = Some (Ok []).
Proof.
  apply (@LoadPolicy_defPolicy (list string) Examples.listGuard
           (one_file "policy" PolicyDefaults.defPolicy) "policy"
           [bytes PolicyDefaults.defPolicy]); reflexivity.
Defined.
